(** * Risk heuristics of the metadata analyser (src/security/heuristics.py)

    A shallow embedding of the security heuristics module: the recursive
    metadata scanner, the PDF and Office structure scanners, the MIME
    dispatcher and the aggregator, followed by the properties of the
    specification that concern them. *)

From Stdlib Require Import String Ascii.
From Stdlib Require Import List Bool Arith NArith ZArith Lia Permutation.
From Stdlib.Strings Require Import Byte.
From Stdlib Require Import DecimalN DecimalString.
Import ListNotations.

Set Implicit Arguments.
Local Open Scope N_scope.

(** ** Python data: [str], [bytes], decimal rendering *)

(** A Python [str] is a sequence of Unicode code points; [len] counts code
    points.  A [bytes] object is a sequence of octets. *)
Definition codepoint := N.
Definition str := list codepoint.
Definition bytes := list byte.
Definition path := str.

Definition len (A : Type) (s : list A) : N := N.of_nat (length s).

(** UTF-8 decoding, as performed on the source text of the module and by
    [bytes.decode()]; only well-formed sequences are of interest here (the
    keyword table and the literals of the module). *)
Fixpoint decode_utf8 (bs : list N) : str :=
  match bs with
  | [] => []
  | b0 :: r0 =>
      if b0 <? 128 then b0 :: decode_utf8 r0
      else
        match r0 with
        | [] => []
        | b1 :: r1 =>
            if b0 <? 224 then ((b0 - 192) * 64 + (b1 - 128)) :: decode_utf8 r1
            else
              match r1 with
              | [] => []
              | b2 :: r2 =>
                  if b0 <? 240
                  then ((b0 - 224) * 4096 + (b1 - 128) * 64 + (b2 - 128)) :: decode_utf8 r2
                  else
                    match r2 with
                    | [] => []
                    | b3 :: r3 =>
                        ((b0 - 240) * 262144 + (b1 - 128) * 4096
                         + (b2 - 128) * 64 + (b3 - 128)) :: decode_utf8 r3
                    end
              end
        end
  end.

(** A [str] literal of the module, given by its UTF-8 source text. *)
Definition lit (s : string) : str :=
  decode_utf8 (map N_of_ascii (list_ascii_of_string s)).

(** A [bytes] literal [b"..."]. *)
Definition blit (s : string) : bytes := list_byte_of_string s.

(** [keyword.decode()] *)
Definition decode (b : bytes) : str := decode_utf8 (map Byte.to_N b).

(** [str(n)] for a non-negative integer, as it appears in an f-string. *)
Fixpoint digits (d : Decimal.uint) : str :=
  match d with
  | Decimal.Nil => []
  | Decimal.D0 d' => 48 :: digits d'
  | Decimal.D1 d' => 49 :: digits d'
  | Decimal.D2 d' => 50 :: digits d'
  | Decimal.D3 d' => 51 :: digits d'
  | Decimal.D4 d' => 52 :: digits d'
  | Decimal.D5 d' => 53 :: digits d'
  | Decimal.D6 d' => 54 :: digits d'
  | Decimal.D7 d' => 55 :: digits d'
  | Decimal.D8 d' => 56 :: digits d'
  | Decimal.D9 d' => 57 :: digits d'
  end.

Definition str_of_int (n : N) : str := digits (N.to_uint n).

(** ** Searching in sequences: [startswith], [endswith], [in] *)

Section SeqSearch.
Variable A : Type.
Variable eqb : A -> A -> bool.

Fixpoint startswith (s prefix : list A) {struct prefix} : bool :=
  match prefix with
  | [] => true
  | p :: prefix' =>
      match s with
      | [] => false
      | c :: s' => if eqb c p then startswith s' prefix' else false
      end
  end.

Definition endswith (s suffix : list A) : bool :=
  startswith (rev s) (rev suffix).

(** [sub in s] *)
Fixpoint contains (sub s : list A) : bool :=
  if startswith s sub then true
  else
    match s with
    | [] => false
    | _ :: s' => contains sub s'
    end.

Fixpoint seq_eqb (s t : list A) : bool :=
  match s, t with
  | [], [] => true
  | c :: s', d :: t' => if eqb c d then seq_eqb s' t' else false
  | _, _ => false
  end.
End SeqSearch.

Definition str_eqb : str -> str -> bool := seq_eqb N.eqb.
Definition str_endswith : str -> str -> bool := endswith N.eqb.
Definition str_in : str -> str -> bool := contains N.eqb.
Definition bytes_eqb : bytes -> bytes -> bool := seq_eqb Byte.eqb.
Definition bytes_in : bytes -> bytes -> bool := contains Byte.eqb.

(** ** Regular expressions of the pattern table

    The patterns of [SUSPICIOUS_METADATA_PATTERNS] are sequences of literal
    characters (possibly escaped), with one occurrence of [.*?].  They are
    always used through [re.search(pattern, value, re.IGNORECASE)]. *)

Inductive atom :=
| Lit (c : codepoint)   (* a literal character *)
| Dot.                  (* [.]: any character except a newline *)

Inductive piece :=
| One (a : atom)
| LazyStar (a : atom).  (* [a*?] *)

Definition regex := list piece.

(** Case folding of [re.IGNORECASE] on [str] patterns, as far as ASCII
    pattern characters can tell: besides A-Z, the code points U+0130 and
    U+0131 match [i], U+017F matches [s] and U+212A matches [k]. *)
Definition fold_case (c : codepoint) : codepoint :=
  if (65 <=? c) && (c <=? 90) then c + 32
  else if (c =? 304) || (c =? 305) then 105
  else if c =? 383 then 115
  else if c =? 8490 then 107
  else c.

Definition atom_matches (a : atom) (c : codepoint) : bool :=
  match a with
  | Lit p => fold_case c =? fold_case p
  | Dot => negb (c =? 10)
  end.

(** Does the pattern match at the start of [s]? *)
Fixpoint match_here (r : regex) : str -> bool :=
  match r with
  | [] => fun _ => true
  | One a :: r' =>
      fun s =>
        match s with
        | [] => false
        | c :: s' => if atom_matches a c then match_here r' s' else false
        end
  | LazyStar a :: r' =>
      fix star (s : str) : bool :=
        if match_here r' s then true
        else
          match s with
          | [] => false
          | c :: s' => if atom_matches a c then star s' else false
          end
  end.

(** [re.search(r, s, re.IGNORECASE)] as a truth value: a match at some
    position of [s], the end included. *)
Fixpoint re_search (r : regex) (s : str) : bool :=
  if match_here r s then true
  else
    match s with
    | [] => false
    | _ :: s' => re_search r s'
    end.

Definition re_lit (s : string) : regex := map (fun c => One (Lit c)) (lit s).

(** ** Constants and patterns *)

Definition SUSPICIOUS_METADATA_PATTERNS : list (regex * str) :=
  [ (re_lit "<script" ++ [LazyStar Dot] ++ re_lit ">",
     lit "Posible inyección de script HTML");
    (re_lit "javascript:", lit "Posible esquema URI de JavaScript");
    (re_lit "eval(", lit "Uso de eval() (ejecución de código dinámico)");
    (re_lit "base64_decode", lit "Decodificación Base64 (común en obfuscación)");
    (re_lit "cmd.exe", lit "Referencia a línea de comandos de Windows");
    (re_lit "powershell", lit "Referencia a PowerShell");
    (re_lit "/bin/sh", lit "Referencia a shell de Unix");
    (re_lit "auto_open", lit "Macro de auto-ejecución (Office)");
    (re_lit "Document_Open", lit "Macro de auto-ejecución (Office)") ].

(** The dictionary [PDF_THREAT_KEYWORDS], in insertion order (the order of
    [.items()]). *)
Definition PDF_THREAT_KEYWORDS : list (bytes * str) :=
  [ (blit "/JavaScript", lit "Contiene código JavaScript");
    (blit "/JS", lit "Contiene código JavaScript");
    (blit "/OpenAction", lit "Ejecuta una acción al abrir el documento");
    (blit "/Launch", lit "Intenta lanzar un programa externo");
    (blit "/RichMedia",
     lit "Contenido multimedia enriquecido (posible vector de ataque)") ].

(** ** The metadata tree *)

(** Objects that are neither [dict], [list], [tuple] nor [str]: the scanner
    has no branch for them. *)
Inductive scalar :=
| PyNone
| PyBool (b : bool)
| PyInt (z : Z)
| PyFloat (bits : N)
| PyBytes (b : bytes).

(** A [dict] keeps its items in insertion order, which is the order of
    [.items()].  A [tuple] is kept with its elements: the image reader
    ([sanitize_exif_value]) hands tuples on as tuples, strings inside them
    included. *)
#[local] Unset Elimination Schemes.
Inductive value :=
| VDict (items : list (str * value))
| VList (elems : list value)
| VStr (s : str)
| VScalar (x : scalar)
| VTuple (elems : list value).
#[local] Set Elimination Schemes.

(** ** Indicator texts *)

Definition long_value_msg (path : str) (n : N) : str :=
  lit "Valor inusualmente largo en '" ++ path ++ lit "' (" ++ str_of_int n
  ++ lit " caracteres)".

Definition detected_msg (desc path : str) : str :=
  lit "Detectado '" ++ desc ++ lit "' en '" ++ path ++ lit "'".

Definition pdf_keyword_msg (desc : str) (keyword : bytes) : str :=
  lit "Estructura PDF sospechosa: " ++ desc ++ lit " (" ++ decode keyword
  ++ lit ")".

Definition pdf_combined_msg (desc : str) : str :=
  lit "Estructura PDF sospechosa: " ++ desc
  ++ lit " combinada con scripts/lanzadores".

Definition structure_error_msg (e : str) : str :=
  lit "Error al analizar estructura del archivo: " ++ e.

Definition vba_msg : str := lit "Contiene Macros VBA (vbaProject.bin)".

Definition ole_msg (n : N) : str :=
  lit "Contiene " ++ str_of_int n ++ lit " objeto(s) OLE incrustado(s)".

(** ** check_metadata_risk *)

(** The branch of [recursive_scan] for a [str]: the length check, then the
    pattern loop, both appending to [indicators]. *)
Definition scan_str (value : str) (path : str) (indicators : list str)
  : list str :=
  let indicators :=
    if 5000 <? len value
    then indicators ++ [long_value_msg path (len value)]
    else indicators in
  fold_left
    (fun indicators (pd : regex * str) =>
       let (pattern, desc) := pd in
       if re_search pattern value
       then indicators ++ [detected_msg desc path]
       else indicators)
    SUSPICIOUS_METADATA_PATTERNS indicators.

(** [f"{path}.{k}" if path else k] *)
Definition child_key (path k : str) : str :=
  match path with
  | [] => k
  | _ :: _ => path ++ lit "." ++ k
  end.

(** [f"{path}[{i}]"] *)
Definition child_index (path : str) (i : N) : str :=
  path ++ lit "[" ++ str_of_int i ++ lit "]".

(** The closure [recursive_scan]; the list [indicators] it appends to is
    threaded through the calls. *)
Fixpoint recursive_scan (v : value) (path : str) (indicators : list str)
  : list str :=
  match v with
  | VDict items =>
      (fix items_loop (kvs : list (str * value)) (indicators : list str) :=
         match kvs with
         | [] => indicators
         | (k, v') :: kvs' =>
             items_loop kvs' (recursive_scan v' (child_key path k) indicators)
         end) items indicators
  | VList elems =>
      (fix enumerate_loop (vs : list value) (i : N) (indicators : list str) :=
         match vs with
         | [] => indicators
         | v' :: vs' =>
             enumerate_loop vs' (N.succ i)
               (recursive_scan v' (child_index path i) indicators)
         end) elems 0 indicators
  | VStr s => scan_str s path indicators
  | VScalar _ => indicators
  | VTuple _ => indicators  (* not a [dict], a [list] or a [str] *)
  end.

Definition check_metadata_risk (metadata : value) : list str :=
  recursive_scan metadata [] [].

(** ** Exceptions, the file system and the interpreter *)

Inductive exn :=
| OSError (msg : str)
| BadZipFile (msg : str)
| OtherException (msg : str).

(** [str(e)] *)
Definition exn_str (e : exn) : str :=
  match e with
  | OSError m | BadZipFile m | OtherException m => m
  end.

Inductive result (A : Type) :=
| Ok (a : A)
| Raise (e : exn).
Arguments Ok {A} a.
Arguments Raise {A} e.

(** What the scanners ask of the file system. *)
Record FileSystem := {
  (** [open(p, "rb").read()] *)
  open_read : path -> result bytes;
  (** [zipfile.is_zipfile(p)], which never raises *)
  is_zipfile : path -> bool;
  (** [zipfile.ZipFile(p, 'r').namelist()] *)
  zip_namelist : path -> result (list str)
}.

(** [list(set(l))]: the distinct elements of [l], in the iteration order of
    the set, which for strings follows the hash seed of the interpreter
    process. *)
Record Interp := {
  list_set : list str -> list str;
  list_set_NoDup : forall l, NoDup (list_set l);
  list_set_In : forall l x, In x (list_set l) <-> In x l
}.

(** A function body: a computation that appends to its local list and may
    raise.  The list survives an exception, as the local variable does. *)
Definition M (A : Type) : Type := list str -> result A * list str.

Definition ret {A} (a : A) : M A := fun st => (Ok a, st).

Definition bind {A B} (m : M A) (k : A -> M B) : M B :=
  fun st =>
    match m st with
    | (Ok a, st') => k a st'
    | (Raise e, st') => (Raise e, st')
    end.

Definition lift {A} (r : result A) : M A := fun st => (r, st).

Definition append (x : str) : M unit := fun st => (Ok tt, st ++ [x]).

Definition extend (xs : list str) : M unit := fun st => (Ok tt, st ++ xs).

Definition get : M (list str) := fun st => (Ok st, st).

Definition pass : M unit := ret tt.

Definition try_except {A} (body : M A) (handler : exn -> M A) : M A :=
  fun st =>
    match body st with
    | (Ok a, st') => (Ok a, st')
    | (Raise e, st') => handler e st'
    end.

Fixpoint for_each {A} (l : list A) (body : A -> M unit) : M unit :=
  match l with
  | [] => ret tt
  | x :: l' => bind (body x) (fun _ => for_each l' body)
  end.

(** Calling a function: its local list starts empty. *)
Definition call {A} (m : M A) : result A := fst (m []).

Declare Scope py_scope.
Delimit Scope py_scope with py.
Notation "x <- m ;; k" := (bind m (fun x => k))
  (at level 61, m at next level, right associativity) : py_scope.
Notation "m ;; k" := (bind m (fun _ => k))
  (at level 61, right associativity) : py_scope.

(** ** Structure scanners *)

Definition pdf_keyword_step (content : bytes) (kd : bytes * str) : M unit :=
  let (keyword, desc) := kd in
  if bytes_in keyword content then
    if bytes_eqb keyword (blit "/OpenAction") then
      if bytes_in (blit "/JavaScript") content
         || bytes_in (blit "/JS") content
         || bytes_in (blit "/Launch") content
      then append (pdf_combined_msg desc)
      else pass
    else append (pdf_keyword_msg desc keyword)
  else pass.

Definition scan_pdf_structure (py : Interp) (fs : FileSystem) (file_path : path)
  : result (list str) :=
  call (try_except
          (content <- lift (open_read fs file_path) ;;
           (if bytes_in (blit "jsPDF") content then pass else pass) ;;
           for_each PDF_THREAT_KEYWORDS (pdf_keyword_step content))
          (fun _ => pass) ;;
        indicators <- get ;;
        ret (list_set py indicators))%py.

(** The same scan with the [jsPDF] branch removed. *)
Definition scan_pdf_structure_without_exemption
  (py : Interp) (fs : FileSystem) (file_path : path) : result (list str) :=
  call (try_except
          (content <- lift (open_read fs file_path) ;;
           for_each PDF_THREAT_KEYWORDS (pdf_keyword_step content))
          (fun _ => pass) ;;
        indicators <- get ;;
        ret (list_set py indicators))%py.

(** [scan_office_structure]; the body of its [try] yields [Some l] when it
    executes [return l] and [None] when it runs to its end. *)
Definition scan_office_structure (fs : FileSystem) (file_path : path)
  : result (list str) :=
  call (returned <-
          try_except
            (if negb (is_zipfile fs file_path) then ret (Some [])
             else
               file_names <- lift (zip_namelist fs file_path) ;;
               (if existsb (fun name => str_endswith name (lit "vbaProject.bin"))
                     file_names
                then append vba_msg else pass) ;;
               (let ole_files :=
                  filter (fun f => str_in (lit "embeddings/oleObject") f)
                    file_names in
                match ole_files with
                | [] => pass
                | _ :: _ => append (ole_msg (len ole_files))
                end) ;;
               ret None)
            (fun _ => ret None) ;;
        match returned with
        | Some l => ret l
        | None => get
        end)%py.

Definition OOXML_MIME_TYPES : list str :=
  [ lit "application/vnd.openxmlformats-officedocument.wordprocessingml.document";
    lit "application/vnd.openxmlformats-officedocument.spreadsheetml.sheet";
    lit "application/vnd.openxmlformats-officedocument.presentationml.presentation" ].

Definition check_file_risk (py : Interp) (fs : FileSystem) (file_path : path)
  (mime_type : str) : result (list str) :=
  call (try_except
          (if str_eqb mime_type (lit "application/pdf") then
             found <- lift (scan_pdf_structure py fs file_path) ;;
             extend found
           else if existsb (str_eqb mime_type) OOXML_MIME_TYPES then
             found <- lift (scan_office_structure fs file_path) ;;
             extend found
           else pass)
          (fun e => append (structure_error_msg (exn_str e))) ;;
        get)%py.

(** ** analyze_risk *)

Record report := {
  is_suspicious : bool;
  indicators : list str
}.

Definition analyze_risk (py : Interp) (fs : FileSystem) (file_path : path)
  (metadata : value) (mime_type : str) : result report :=
  call (extend (check_metadata_risk metadata) ;;
        found <- lift (check_file_risk py fs file_path mime_type) ;;
        extend found ;;
        findings <- get ;;
        ret {| is_suspicious := 0 <? len findings; indicators := findings |})%py.

(** ** Notions used to state the properties *)

(** [sub] occurs in [s] as a contiguous run. *)
Definition occurs_in (A : Type) (sub s : list A) : Prop :=
  exists pre post, s = pre ++ sub ++ post.

Definition ends_with (A : Type) (s suffix : list A) : Prop :=
  exists pre, s = pre ++ suffix.

(** The words of a pattern. *)
Inductive lang : regex -> str -> Prop :=
| lang_nil : lang [] []
| lang_one a r c w :
    atom_matches a c = true -> lang r w -> lang (One a :: r) (c :: w)
| lang_star_skip a r w :
    lang r w -> lang (LazyStar a :: r) w
| lang_star_step a r c w :
    atom_matches a c = true -> lang (LazyStar a :: r) w ->
    lang (LazyStar a :: r) (c :: w).

(** The pattern matches somewhere in [s]. *)
Definition matches_in (r : regex) (s : str) : Prop :=
  exists pre mid post, s = pre ++ mid ++ post /\ lang r mid.

(** Python's [enumerate], from a given start. *)
Fixpoint enumerate_from (A : Type) (i : N) (l : list A) : list (N * A) :=
  match l with
  | [] => []
  | x :: l' => (i, x) :: enumerate_from (N.succ i) l'
  end.

(** [leaf_at v path p s]: below [v], itself at [path], the string [s] is a
    leaf and its path is [p]. *)
Inductive leaf_at : value -> str -> str -> str -> Prop :=
| leaf_here s path : leaf_at (VStr s) path path s
| leaf_in_dict items k v path p s :
    In (k, v) items -> leaf_at v (child_key path k) p s ->
    leaf_at (VDict items) path p s
| leaf_in_list elems i v path p s :
    nth_error elems i = Some v ->
    leaf_at v (child_index path (N.of_nat i)) p s ->
    leaf_at (VList elems) path p s.

(** A string leaf of a whole metadata tree. *)
Definition string_leaf (metadata : value) (p s : str) : Prop :=
  leaf_at metadata [] p s.

(** The tree holds no string at all. *)
Fixpoint no_strings (v : value) : bool :=
  match v with
  | VDict items =>
      (fix all_items (kvs : list (str * value)) : bool :=
         match kvs with
         | [] => true
         | (_, v') :: kvs' => no_strings v' && all_items kvs'
         end) items
  | VList elems =>
      (fix all_elems (vs : list value) : bool :=
         match vs with
         | [] => true
         | v' :: vs' => no_strings v' && all_elems vs'
         end) elems
  | VStr _ => false
  | VScalar _ => true
  | VTuple elems =>
      (fix all_elems (vs : list value) : bool :=
         match vs with
         | [] => true
         | v' :: vs' => no_strings v' && all_elems vs'
         end) elems
  end.

(** *** The place of a string in a tree and the path that names it

    The path of the specification: mapping keys joined by [.], positions in
    a sequence rendered as [[i]], the root path empty.  It is written here
    on the way from the root to the string, apart from the scanner. *)

(** One step down: to the value under a key of a mapping, or to the element
    at a position of a list. *)
Inductive step :=
| Key (k : str)
| Index (i : nat).

(** [located v steps s]: going down from [v] along [steps] ends on the
    string [s]. *)
Inductive located : value -> list step -> str -> Prop :=
| located_here s : located (VStr s) [] s
| located_key items k v steps s :
    In (k, v) items -> located v steps s ->
    located (VDict items) (Key k :: steps) s
| located_index elems i v steps s :
    nth_error elems i = Some v -> located v steps s ->
    located (VList elems) (Index i :: steps) s.


(** A number in decimal, by the printer of the standard library. *)
Definition decimal (n : N) : str :=
  map N_of_ascii
    (list_ascii_of_string (NilEmpty.string_of_uint (N.to_uint n))).

(** What the steps add to a path that is not empty: [.] (code point 46) and
    the key, or the position between [[] (91) and []] (93). *)
Fixpoint path_tail (steps : list step) : str :=
  match steps with
  | [] => []
  | Key k :: steps' => [46] ++ k ++ path_tail steps'
  | Index i :: steps' => [91] ++ decimal (N.of_nat i) ++ [93] ++ path_tail steps'
  end.

(** The path of a place, from the root.  There is no [.] before the first
    key; an empty key at the root leaves the path empty, so that the next
    key counts as the first. *)
Fixpoint path_of (steps : list step) : str :=
  match steps with
  | [] => []
  | Key [] :: steps' => path_of steps'
  | Key ((_ :: _) as k) :: steps' => k ++ path_tail steps'
  | Index i :: steps' => [91] ++ decimal (N.of_nat i) ++ [93] ++ path_tail steps'
  end.

(** The path of a place below a node that is itself at [path]. *)
Definition path_from (path : str) (steps : list step) : str :=
  match path with
  | [] => path_of steps
  | _ :: _ => path ++ path_tail steps
  end.


(** The findings of the keyword loop on the content of a PDF, before the
    conversion through a set. *)
Definition pdf_findings (content : bytes) : list str :=
  snd (for_each PDF_THREAT_KEYWORDS (pdf_keyword_step content) []).

(** What the pattern loop appends for one string. *)
Definition pattern_hits (value path : str) : list str :=
  flat_map
    (fun pd : regex * str =>
       if re_search (fst pd) value then [detected_msg (snd pd) path] else [])
    SUSPICIOUS_METADATA_PATTERNS.

(** What the length check appends for one string. *)
Definition length_hit (value path : str) : list str :=
  if 5000 <? len value then [long_value_msg path (len value)] else [].

(** What one turn of the keyword loop appends. *)
Definition pdf_step_out (content : bytes) (kd : bytes * str) : list str :=
  snd (pdf_keyword_step content kd []).

Definition str_eq_dec : forall s t : str, {s = t} + {s <> t} :=
  list_eq_dec N.eq_dec.

(** The archive entries that count as embedded OLE objects. *)
Definition ole_entries (file_names : list str) : list str :=
  filter (fun f => str_in (lit "embeddings/oleObject") f) file_names.

(** What the Office scan appends for the entry names of an archive. *)
Definition office_findings (file_names : list str) : list str :=
  (if existsb (fun name => str_endswith name (lit "vbaProject.bin")) file_names
   then [vba_msg] else [])
  ++ (match ole_entries file_names with
      | [] => []
      | _ :: _ => [ole_msg (len (ole_entries file_names))]
      end).

(** ** Two interpreters and some files, for concrete runs *)

(** The distinct elements in order of first occurrence. *)
Fixpoint dedup (l : list str) : list str :=
  match l with
  | [] => []
  | x :: l' => x :: filter (fun y => negb (str_eqb x y)) (dedup l')
  end.

Definition dedup_spec (l : list str) :
  NoDup (dedup l) /\ forall x, In x (dedup l) <-> In x l.
Proof.
  assert (Heq : forall s t : str, str_eqb s t = true <-> s = t).
  { intros s; induction s as [|c s IH]; intros [|d t]; simpl;
      try (split; [discriminate | intros H; discriminate]); try tauto.
    destruct (N.eqb c d) eqn:E.
    - apply N.eqb_eq in E; subst. rewrite IH.
      split; [now intros -> | now inversion 1].
    - apply N.eqb_neq in E. split; [discriminate | inversion 1; subst; tauto]. }
  induction l as [|x l [IHn IHi]]; simpl.
  - split; [constructor | tauto].
  - split.
    + constructor.
      * rewrite filter_In. intros [_ H].
        assert (str_eqb x x = true) by now apply Heq.
        rewrite H0 in H. discriminate.
      * now apply NoDup_filter.
    + intros y. rewrite filter_In, IHi. split.
      * tauto.
      * intros [->|H]; [now left|].
        destruct (str_eqb x y) eqn:E.
        -- apply Heq in E. now left.
        -- right. now split.
Defined.

(** An interpreter whose sets of strings iterate in order of insertion. *)
Definition py_insertion_order : Interp :=
  {| list_set := dedup;
     list_set_NoDup := fun l => proj1 (dedup_spec l);
     list_set_In := fun l => proj2 (dedup_spec l) |}.

(** An interpreter whose sets of strings iterate in the opposite order. *)
Definition py_reverse_order : Interp :=
  {| list_set := fun l => rev (dedup l);
     list_set_NoDup := fun l => NoDup_rev (proj1 (dedup_spec l));
     list_set_In :=
       fun l x =>
         iff_trans (iff_sym (in_rev (dedup l) x)) (proj2 (dedup_spec l) x) |}.

(** A file system in which every path is a readable file with the given
    content that is not a ZIP archive. *)
Definition fs_plain (content : bytes) : FileSystem :=
  {| open_read := fun _ => Ok content;
     is_zipfile := fun _ => false;
     zip_namelist := fun _ => Raise (BadZipFile (lit "File is not a zip file")) |}.

(** A file system in which every path is a ZIP archive with the given entry
    names. *)
Definition fs_zip (file_names : list str) : FileSystem :=
  {| open_read := fun _ => Ok [];
     is_zipfile := fun _ => true;
     zip_namelist := fun _ => Ok file_names |}.

(** A file system in which no file can be opened. *)
Definition fs_unreadable : FileSystem :=
  {| open_read := fun _ => Raise (OSError (lit "[Errno 13] Permission denied"));
     is_zipfile := fun _ => false;
     zip_namelist :=
       fun _ => Raise (OSError (lit "[Errno 13] Permission denied")) |}.

(** A file system in which every path looks like a ZIP archive whose
    directory cannot be read. *)
Definition fs_corrupt_zip : FileSystem :=
  {| open_read := fun _ => Ok (blit "PK");
     is_zipfile := fun _ => true;
     zip_namelist := fun _ => Raise (BadZipFile (lit "Bad magic number for central directory")) |}.

(** A file whose bytes hold [/OpenAction] and [/RichMedia] but no script or
    launch keyword. *)
Definition pdf_openaction_richmedia : bytes :=
  blit "%PDF-1.4 1 0 obj << /OpenAction [3 0 R /Fit] /RichMedia 4 0 R >> endobj".

(** A file whose bytes hold [/JS] and [/Launch]. *)
Definition pdf_js_launch : bytes :=
  blit "%PDF-1.4 1 0 obj << /JS (app.alert(1)) >> 2 0 obj << /S /Launch /F (cmd) >>".

(** A file whose bytes hold [/OpenAction] and [/JavaScript]. *)
Definition pdf_openaction_javascript : bytes :=
  blit "%PDF-1.4 1 0 obj << /OpenAction 2 0 R >> 2 0 obj << /S /JavaScript >>".

(** A file produced by jsPDF, with a script. *)
Definition pdf_jspdf : bytes :=
  blit "%PDF-1.3 1 0 obj << /Producer (jsPDF 2.5.1) /OpenAction [3 0 R /FitH null] /JS (x) >>".

(** A string of [n] filler characters. *)
Definition filler (n : N) : str := repeat 65 (N.to_nat n).

(** * The modules around the heuristics *)

(** ** Dictionaries with string keys

    A [dict] is kept as the list of its items in insertion order.
    [d[k] = v] replaces the value of an existing key in place and appends a
    new key at the end. *)
Fixpoint dict_set (V : Type) (d : list (str * V)) (k : str) (v : V)
  : list (str * V) :=
  match d with
  | [] => [(k, v)]
  | (k', v') :: d' =>
      if str_eqb k' k then (k', v) :: d' else (k', v') :: dict_set d' k v
  end.

(** [d.get(k)] *)
Fixpoint dict_get (V : Type) (d : list (str * V)) (k : str) : option V :=
  match d with
  | [] => None
  | (k', v) :: d' => if str_eqb k' k then Some v else dict_get d' k
  end.

(** A dictionary display [{k1: v1, k2: v2, ...}]: the pairs are stored from
    left to right. *)
Definition dict_literal (V : Type) (pairs : list (str * V)) : list (str * V) :=
  fold_left (fun d kv => dict_set d (fst kv) (snd kv)) pairs [].

(** The keys of a dictionary, in order. *)
Definition keys (V : Type) (d : list (str * V)) : list str := map fst d.

(** ** Exceptions of the surrounding modules *)

(** [FileNotFoundError], which [get_mime_type] lets through; the other
    [OSError]s, which [pathlib] and [stat] raise for a name that is too
    long or a directory that may not be searched; [RuntimeError], which
    [expanduser] raises when it finds no home directory; and any other
    [Exception]. *)
Inductive pyexc :=
| FileNotFoundError (msg : str)
| OtherOSError (msg : str)
| RuntimeError (msg : str)
| OtherError (msg : str).

(** [str(e)] *)
Definition pyexc_str (e : pyexc) : str :=
  match e with
  | FileNotFoundError m | OtherOSError m | RuntimeError m | OtherError m => m
  end.

Inductive res (A : Type) :=
| Return (a : A)
| Throw (e : pyexc).
Arguments Return {A} a.
Arguments Throw {A} e.

Definition res_bind (A B : Type) (r : res A) (k : A -> res B) : res B :=
  match r with
  | Return a => k a
  | Throw e => Throw e
  end.

Declare Scope res_scope.
Delimit Scope res_scope with res.
Notation "x <- m ;; k" := (res_bind m (fun x => k))
  (at level 61, m at next level, right associativity) : res_scope.

(** What these modules ask of the standard library, of [pathlib] and of
    [puremagic]. *)
Record Platform := {
  (** [s.lower()] *)
  str_lower : str -> str;
  (** [Path(p).expanduser().resolve()], which may raise *)
  resolve : path -> res path;
  (** [p.is_file()]: [True], [False], or an [OSError] other than those
      that [is_file] turns into [False] *)
  is_file : path -> res bool;
  (** [p.suffix] *)
  path_suffix : path -> str;
  (** [p.name] *)
  path_name : path -> str;
  (** [p.stat().st_size], which may raise *)
  st_size : path -> res N;
  (** the [mime_type] of each match of [puremagic.magic_file(str(p))] *)
  magic_file : path -> res (list str)
}.

(** ** utils/mime_tools.py *)

(** The pairs of the display of [EXTENSIONES_MIME], as written. *)
Definition EXTENSIONES_MIME_display : list (str * str) :=
  [ (lit ".pdf", lit "application/pdf");
    (lit ".jpg", lit "image/jpeg");
    (lit ".jpeg", lit "image/jpeg");
    (lit ".png", lit "image/png");
    (lit ".gif", lit "image/gif");
    (lit ".webp", lit "image/webp");
    (lit ".heic", lit "image/heic");
    (lit ".heic", lit "image/heif");
    (lit ".txt", lit "text/plain");
    (lit ".doc", lit "application/msword");
    (lit ".docx",
     lit "application/vnd.openxmlformats-officedocument.wordprocessingml.document");
    (lit ".xls", lit "application/vnd.ms-excel");
    (lit ".xlsx",
     lit "application/vnd.openxmlformats-officedocument.spreadsheetml.sheet");
    (lit ".zip", lit "application/zip");
    (lit ".rar", lit "application/x-rar-compressed");
    (lit ".mp3", lit "audio/mpeg");
    (lit ".mp4", lit "video/mp4");
    (lit ".avi", lit "video/x-msvideo");
    (lit ".rtf", lit "text/rtf") ].

Definition EXTENSIONES_MIME : list (str * str) :=
  dict_literal EXTENSIONES_MIME_display.

(** [mime] may be [None]; the loop returns at the first item whose value is
    the lowered [mime]. *)
Definition guess_extension_from_mime (pf : Platform) (mime : option str)
  : option str :=
  let mime := str_lower pf (match mime with Some m => m | None => [] end) in
  (fix items_loop (items : list (str * str)) : option str :=
     match items with
     | [] => None
     | (ext, expected) :: items' =>
         if str_eqb expected mime then Some ext else items_loop items'
     end) EXTENSIONES_MIME.

(** ** utils/path_tools.py *)

Definition resolve_path (pf : Platform) (p : path) : res path := resolve pf p.

Definition file_exists (pf : Platform) (p : path) : res bool :=
  (resolved <- resolve_path pf p ;;
   is_file pf resolved)%res.

Definition ensure_readable_file (pf : Platform) (p : path) : res path :=
  (resolved <- resolve_path pf p ;;
   found <- is_file pf resolved ;;
   if negb found
   then Throw (FileNotFoundError
                 (lit "El archivo '" ++ resolved
                  ++ lit "' no existe o no es válido"))
   else Return resolved)%res.

(** ** core/detect_extension.py *)

Definition get_mime_type (pf : Platform) (file_path : path)
  : res (option str) :=
  match
    (safe_path <- ensure_readable_file pf file_path ;;
     matches <- magic_file pf safe_path ;;
     match matches with
     | [] => Return None
     | [only] => Return (Some only)
     | first :: _ =>
         let current_ext := str_lower pf (path_suffix pf safe_path) in
         match dict_get EXTENSIONES_MIME current_ext with
         | Some ((_ :: _) as expected_mime) =>
             match find (fun m => str_eqb m expected_mime) matches with
             | Some m => Return (Some m)
             | None => Return (Some first)
             end
         | _ => Return (Some first)
         end
     end)%res
  with
  | Return r => Return r
  | Throw (FileNotFoundError m) => Throw (FileNotFoundError m)
  | Throw _ => Return None
  end.

(** [EXTENSIONES_MIME.get(ext) == mime_type] for a [str] [mime_type] *)
Definition get_equals (d : list (str * str)) (ext mime_type : str) : bool :=
  match dict_get d ext with
  | Some expected => str_eqb expected mime_type
  | None => false
  end.

Definition extension_matches_mime (pf : Platform) (file_path : path)
  : res bool :=
  (safe_path <- ensure_readable_file pf file_path ;;
   let current_extension := str_lower pf (path_suffix pf safe_path) in
   mime_type <- get_mime_type pf safe_path ;;
   match mime_type with
   | None => Return false
   | Some mime_type =>
       Return (get_equals EXTENSIONES_MIME current_extension mime_type)
   end)%res.

(** [s or None] *)
Definition or_None (s : str) : option str :=
  match s with
  | [] => None
  | _ :: _ => Some s
  end.

Definition suggest_correct_extension (pf : Platform) (file_path : path)
  : res (option str) :=
  (safe_path <- ensure_readable_file pf file_path ;;
   mime_type <- get_mime_type pf safe_path ;;
   match mime_type with
   | None => Return None
   | Some mime_type =>
       match guess_extension_from_mime pf (Some mime_type) with
       | Some ((_ :: _) as suggested) => Return (Some suggested)
       | _ => Return (or_None (str_lower pf (path_suffix pf safe_path)))
       end
   end)%res.

(** ** core/file_loader.py *)

Inductive FileType := image | pdf | docx | unknown.

Definition _infer_file_type (extension : str) (mime_type : option str)
  : FileType :=
  if match mime_type with
     | Some ((_ :: _) as m) => startswith N.eqb m (lit "image/")
     | _ => false
     end
  then image
  else if match mime_type with
          | Some m => str_eqb m (lit "application/pdf")
          | None => false
          end
          || str_eqb extension (lit ".pdf")
  then pdf
  else if match mime_type with
          | Some m =>
              existsb (str_eqb m)
                [ lit "application/msword";
                  lit "application/vnd.openxmlformats-officedocument.wordprocessingml.document" ]
          | None => false
          end
          || existsb (str_eqb extension) [lit ".doc"; lit ".docx"]
  then docx
  else unknown.

Record file_info := {
  info_path : str;
  info_extension : str;
  info_mime : str;
  info_type : FileType
}.

Definition load_file_info (pf : Platform) (file_path : path) : res file_info :=
  (safe_path <- ensure_readable_file pf file_path ;;
   detected <- get_mime_type pf safe_path ;;
   let mime_type :=
     match detected with
     | Some ((_ :: _) as m) => m
     | _ => lit "unknown"
     end in
   let extension := str_lower pf (path_suffix pf safe_path) in
   Return {| info_path := safe_path;
             info_extension := extension;
             info_mime := mime_type;
             info_type := _infer_file_type extension (Some mime_type) |})%res.

(** ** core/modify_metadata/utils_modifier.py *)

(** The characters that [str.strip()] removes: those for which
    [str.isspace] holds. *)
Definition is_space (c : codepoint) : bool :=
  ((9 <=? c) && (c <=? 13)) || ((28 <=? c) && (c <=? 32))
  || (c =? 133) || (c =? 160) || (c =? 5760)
  || ((8192 <=? c) && (c <=? 8202))
  || (c =? 8232) || (c =? 8233) || (c =? 8239) || (c =? 8287)
  || (c =? 12288).

Fixpoint lstrip_with (drop : codepoint -> bool) (s : str) : str :=
  match s with
  | [] => []
  | c :: s' => if drop c then lstrip_with drop s' else s
  end.

Definition strip_with (drop : codepoint -> bool) (s : str) : str :=
  rev (lstrip_with drop (rev (lstrip_with drop s))).

(** No character to strip at either end. *)
Definition stripped (drop : codepoint -> bool) (s : str) : Prop :=
  lstrip_with drop s = s /\ lstrip_with drop (rev s) = rev s.

(** [s.strip()] *)
Definition strip (s : str) : str := strip_with is_space s.

(** The metadata handed over by the callers: keys are strings, a value is a
    string or [None]. *)
Definition normalize_metadata_dict (metadata : list (str * option str))
  : list (str * str) :=
  fold_left
    (fun normalized (kv : str * option str) =>
       match snd kv with
       | None => normalized
       | Some value => dict_set normalized (strip (fst kv)) (strip value)
       end)
    metadata [].

(** ** core/analyze_metadata.py *)

(** The core properties of a document as [python-docx] gives them; the
    dates have gone through [str()]. *)
Record CoreProperties := {
  author : option str;
  title : option str;
  subject : option str;
  created : str;
  modified : str;
  last_printed : str
}.

(** What the extractors ask of [PyPDF2] and [python-docx], and the image
    extractor as a whole. *)
Record Readers := {
  (** the items of [PdfReader(f).metadata or {}], values through [str()] *)
  pdf_metadata : path -> res (list (str * str));
  (** [Document(str(p)).core_properties] *)
  core_properties : path -> res CoreProperties;
  (** [extract_metadata_image(p)] *)
  extract_metadata_image : path -> res value
}.

Definition str_or_None (o : option str) : value :=
  match o with
  | Some s => VStr s
  | None => VScalar PyNone
  end.

Definition extract_metadata_pdf (pf : Platform) (rd : Readers)
  (file_path : path) : res (list (str * value)) :=
  (safe_path <- ensure_readable_file pf file_path ;;
   match pdf_metadata rd safe_path with
   | Return info =>
       Return
         (fold_left
            (fun metadata (kv : str * str) =>
               dict_set metadata (strip_with (N.eqb 47) (fst kv))
                 (VStr (snd kv)))
            info [])
   | Throw e =>
       Return [(lit "error",
                VStr (lit "Failed to read PDF metadata: " ++ pyexc_str e))]
   end)%res.

Definition extract_metadata_docx (pf : Platform) (rd : Readers)
  (file_path : path) : res (list (str * value)) :=
  (safe_path <- ensure_readable_file pf file_path ;;
   match core_properties rd safe_path with
   | Return props =>
       Return
         (dict_literal
            [ (lit "author", str_or_None (author props));
              (lit "title", str_or_None (title props));
              (lit "subject", str_or_None (subject props));
              (lit "created", VStr (created props));
              (lit "modified", VStr (modified props));
              (lit "last_printed", VStr (last_printed props)) ])
   | Throw e =>
       Return [(lit "error",
                VStr (lit "Failed to read DOCX metadata: " ++ pyexc_str e))]
   end)%res.

(** The dictionary returned by [extract_metadata_auto]; the key
    [security_analysis] may be absent. *)
Record analysis := {
  file : str;
  analysis_path : str;
  mime_type_of : str;
  extension_of : str;
  metadata_of : value;
  security_analysis : option report
}.

(** [extract_metadata_auto] returns the dictionary and what it printed. *)
Definition extract_metadata_auto (py : Interp) (fs : FileSystem)
  (pf : Platform) (rd : Readers) (file_path : path)
  : res (analysis * list str) :=
  (safe_path <- ensure_readable_file pf file_path ;;
   size <- st_size pf safe_path ;;
   if size =? 0 then
     Return ({| file := path_name pf safe_path;
                analysis_path := safe_path;
                mime_type_of := lit "application/x-empty";
                extension_of := str_lower pf (path_suffix pf safe_path);
                metadata_of :=
                  VDict [(lit "info", VStr (lit "File is empty (0 bytes)."))];
                security_analysis := None |}, [])
   else
     detected <- get_mime_type pf safe_path ;;
     let mime_type :=
       match detected with
       | None => lit "application/octet-stream"
       | Some m => m
       end in
     let extension := str_lower pf (path_suffix pf safe_path) in
     let result (metadata : value) (security : option report) :=
       {| file := path_name pf safe_path;
          analysis_path := safe_path;
          mime_type_of := mime_type;
          extension_of := extension;
          metadata_of := metadata;
          security_analysis := security |} in
     match
       (metadata <-
          (if startswith N.eqb mime_type (lit "image/") then
             extract_metadata_image rd safe_path
           else if str_eqb mime_type (lit "application/pdf") then
             items <- extract_metadata_pdf pf rd safe_path ;;
             Return (VDict items)
           else if existsb (str_eqb mime_type)
                     [ lit "application/msword";
                       lit "application/vnd.openxmlformats-officedocument.wordprocessingml.document" ]
           then
             items <- extract_metadata_docx pf rd safe_path ;;
             Return (VDict items)
           else
             Return
               (VDict [(lit "info",
                        VStr (lit "Format not currently supported for deep analysis."))])) ;;
        security_report <-
          match analyze_risk py fs safe_path metadata mime_type with
          | Ok r => Return r
          | Raise e => Throw (OtherError (exn_str e))
          end ;;
        Return (result metadata
                  (if is_suspicious security_report
                   then Some security_report else None)))
     with
     | Return r => Return (r, [])
     | Throw e =>
         Return (result (VDict [(lit "error", VStr (pyexc_str e))]) None,
                 [lit "Error analyzing " ++ safe_path ++ lit ": "
                  ++ pyexc_str e])
     end)%res.

(** An ASCII-only [lower], which is [str.lower] on ASCII strings. *)
Definition ascii_lower (s : str) : str :=
  map (fun c => if (65 <=? c) && (c <=? 90) then c + 32 else c) s.

(** The part of a file name from its last dot on, if it has a dot. *)
Fixpoint suffix_from (s : str) (acc : option str) : option str :=
  match s with
  | [] => acc
  | c :: s' => suffix_from s' (if c =? 46 then Some s else acc)
  end.

(** [PurePath.suffix] for a plain file name: the part from the last dot on,
    unless that dot is the first or the last character. *)
Definition name_suffix (name : str) : str :=
  match suffix_from name None with
  | Some suffix =>
      if (len suffix =? len name) || (len suffix =? 1) then [] else suffix
  | None => []
  end.

(** A platform on which every path is a file of [size] bytes for which
    [puremagic] reports [matches]. *)
Definition pf_file (size : N) (matches : res (list str)) : Platform :=
  {| str_lower := ascii_lower;
     resolve := fun p => Return p;
     is_file := fun _ => Return true;
     path_suffix := name_suffix;
     path_name := fun p => p;
     st_size := fun _ => Return size;
     magic_file := fun _ => matches |}.

(** A platform without files. *)
Definition pf_no_file : Platform :=
  {| str_lower := ascii_lower;
     resolve := fun p => Return p;
     is_file := fun _ => Return false;
     path_suffix := fun _ => [];
     path_name := fun p => p;
     st_size :=
       fun _ => Throw (FileNotFoundError
                         (lit "[Errno 2] No such file or directory"));
     magic_file := fun _ => Return [] |}.

(** A platform on which a file name may have 255 characters at most:
    [is_file] and [stat] raise for a longer one. *)
Definition pf_name_max : Platform :=
  {| str_lower := ascii_lower;
     resolve := fun p => Return p;
     is_file :=
       fun p => if 255 <? len p
                then Throw (OtherOSError (lit "[Errno 36] File name too long"))
                else Return true;
     path_suffix := name_suffix;
     path_name := fun p => p;
     st_size :=
       fun p => if 255 <? len p
                then Throw (OtherOSError (lit "[Errno 36] File name too long"))
                else Return 80;
     magic_file := fun _ => Return [lit "application/pdf"] |}.

(** A platform without a home directory: [expanduser] raises for a path
    that starts with a tilde (code point 126). *)
Definition pf_no_home : Platform :=
  {| str_lower := ascii_lower;
     resolve :=
       fun p => match p with
                | 126 :: _ =>
                    Throw (RuntimeError
                             (lit "Could not determine home directory."))
                | _ => Return p
                end;
     is_file := fun _ => Return true;
     path_suffix := name_suffix;
     path_name := fun p => p;
     st_size := fun _ => Return 80;
     magic_file := fun _ => Return [lit "application/pdf"] |}.

(** Readers that fail on every file. *)
Definition rd_failing : Readers :=
  {| pdf_metadata := fun _ => Throw (OtherError (lit "EOF marker not found"));
     core_properties := fun _ => Throw (OtherError (lit "Package not found"));
     extract_metadata_image :=
       fun _ => Return (VDict [(lit "error",
                                VStr (lit "Error processing image: cannot identify image file"))]) |}.

Arguments lit : simpl never.
Arguments blit : simpl never.
Arguments decode : simpl never.
Arguments str_of_int : simpl never.
Arguments str_eq_dec : simpl never.

(** * Properties *)

(** ** Sequences *)

Section SeqSearchFacts.
Variable A : Type.
Variable eqb : A -> A -> bool.
Hypothesis eqb_eq : forall x y, eqb x y = true <-> x = y.

Lemma startswith_iff (s prefix : list A) :
  startswith eqb s prefix = true <-> exists rest, s = prefix ++ rest.
Proof.
  revert s; induction prefix as [|p prefix IH]; intros s; simpl.
  - split; [intros _; now exists s | reflexivity].
  - destruct s as [|c s].
    + split; [discriminate | intros [rest H]; discriminate].
    + destruct (eqb c p) eqn:E.
      * apply eqb_eq in E; subst c. rewrite IH.
        split; intros [rest H]; exists rest; [now rewrite H | now inversion H].
      * split; [discriminate|]. intros [rest H]. inversion H; subst.
        assert (eqb p p = true) by now apply eqb_eq. congruence.
Qed.

Lemma contains_iff (sub s : list A) :
  contains eqb sub s = true <-> occurs_in sub s.
Proof.
  unfold occurs_in. induction s as [|c s IH]; simpl.
  - destruct (startswith eqb [] sub) eqn:E.
    + apply startswith_iff in E as [rest E]. split; [|reflexivity].
      intros _. exists [], rest. exact E.
    + split; [discriminate|]. intros (pre & post & H).
      destruct pre; [|discriminate]. simpl in H.
      assert (startswith eqb [] sub = true)
        by (apply startswith_iff; now exists post).
      congruence.
  - destruct (startswith eqb (c :: s) sub) eqn:E.
    + apply startswith_iff in E as [rest E]. split; [|reflexivity].
      intros _. exists [], rest. exact E.
    + rewrite IH. split.
      * intros (pre & post & H). exists (c :: pre), post. now rewrite H.
      * intros (pre & post & H). destruct pre as [|c' pre].
        -- simpl in H.
           assert (startswith eqb (c :: s) sub = true)
             by (apply startswith_iff; now exists post).
           congruence.
        -- inversion H; subst. now exists pre, post.
Qed.

Lemma endswith_iff (s suffix : list A) :
  endswith eqb s suffix = true <-> ends_with s suffix.
Proof.
  unfold endswith, ends_with. rewrite startswith_iff. split.
  - intros [rest H]. exists (rev rest).
    rewrite <- (rev_involutive s), H, rev_app_distr, rev_involutive.
    reflexivity.
  - intros [pre H]. exists (rev pre). now rewrite H, rev_app_distr.
Qed.

Lemma seq_eqb_iff (s t : list A) : seq_eqb eqb s t = true <-> s = t.
Proof.
  revert t; induction s as [|c s IH]; intros [|d t]; simpl;
    try (split; [discriminate | intros H; discriminate]);
    try tauto.
  destruct (eqb c d) eqn:E.
  - apply eqb_eq in E; subst. rewrite IH.
    split; [now intros -> | now inversion 1].
  - split; [discriminate|]. inversion 1; subst.
    assert (eqb d d = true) by now apply eqb_eq. congruence.
Qed.
End SeqSearchFacts.

Lemma byte_eqb_eq (x y : byte) : Byte.eqb x y = true <-> x = y.
Proof.
  split; [apply Byte.byte_dec_bl | apply Byte.byte_dec_lb].
Qed.

Lemma bytes_in_iff (sub s : bytes) : bytes_in sub s = true <-> occurs_in sub s.
Proof. apply contains_iff, byte_eqb_eq. Qed.

Lemma str_in_iff (sub s : str) : str_in sub s = true <-> occurs_in sub s.
Proof. apply contains_iff, N.eqb_eq. Qed.

Lemma str_endswith_iff (s suffix : str) :
  str_endswith s suffix = true <-> ends_with s suffix.
Proof. apply endswith_iff, N.eqb_eq. Qed.

Lemma str_eqb_iff (s t : str) : str_eqb s t = true <-> s = t.
Proof. apply seq_eqb_iff, N.eqb_eq. Qed.

(** ** The matcher and the words of a pattern *)

Lemma match_here_iff (r : regex) (s : str) :
  match_here r s = true <-> exists mid post, s = mid ++ post /\ lang r mid.
Proof.
  revert s; induction r as [|[a|a] r IH]; intros s.
  - simpl. split; [|reflexivity]. intros _. exists [], s. split; [reflexivity|constructor].
  - simpl. destruct s as [|c s].
    + split; [discriminate|]. intros (mid & post & H & L).
      inversion L; subst. discriminate.
    + destruct (atom_matches a c) eqn:E.
      * rewrite IH. split.
        -- intros (mid & post & -> & L). exists (c :: mid), post.
           split; [reflexivity | now constructor].
        -- intros (mid & post & H & L). inversion L; subst.
           inversion H; subst. now exists w, post.
      * split; [discriminate|]. intros (mid & post & H & L).
        inversion L; subst. inversion H; subst. congruence.
  - induction s as [|c s IHs].
    + simpl. destruct (match_here r []) eqn:E.
      * split; [|reflexivity]. intros _. apply IH in E as (mid & post & H & L).
        exists mid, post. split; [exact H | now apply lang_star_skip].
      * split; [discriminate|]. intros (mid & post & H & L).
        destruct mid; [|discriminate].
        inversion L; subst.
        assert (match_here r [] = true)
          by (apply IH; exists [], post; now split).
        congruence.
    + simpl. destruct (match_here r (c :: s)) eqn:E.
      * split; [|reflexivity]. intros _. apply IH in E as (mid & post & H & L).
        exists mid, post. split; [exact H | now apply lang_star_skip].
      * destruct (atom_matches a c) eqn:Ea.
        -- simpl in IHs. rewrite IHs. split.
           ++ intros (mid & post & -> & L). exists (c :: mid), post.
              split; [reflexivity | now apply lang_star_step].
           ++ intros (mid & post & H & L). inversion L; subst.
              ** assert (match_here r (c :: s) = true)
                   by (apply IH; exists mid, post; now split).
                 congruence.
              ** inversion H; subst. now exists w, post.
        -- split; [discriminate|]. intros (mid & post & H & L).
           inversion L; subst.
           ++ assert (match_here r (c :: s) = true)
                by (apply IH; exists mid, post; now split).
              congruence.
           ++ inversion H; subst. congruence.
Qed.

Lemma re_search_iff (r : regex) (s : str) :
  re_search r s = true <-> matches_in r s.
Proof.
  unfold matches_in. induction s as [|c s IH]; simpl.
  - destruct (match_here r []) eqn:E.
    + split; [|reflexivity]. intros _.
      apply match_here_iff in E as (mid & post & H & L). now exists [], mid, post.
    + split; [discriminate|]. intros (pre & mid & post & H & L).
      destruct pre; [|discriminate].
      assert (match_here r [] = true)
        by (apply match_here_iff; now exists mid, post).
      congruence.
  - destruct (match_here r (c :: s)) eqn:E.
    + split; [|reflexivity]. intros _.
      apply match_here_iff in E as (mid & post & H & L). now exists [], mid, post.
    + rewrite IH. split.
      * intros (pre & mid & post & -> & L). now exists (c :: pre), mid, post.
      * intros (pre & mid & post & H & L). destruct pre as [|c' pre].
        -- assert (match_here r (c :: s) = true)
             by (apply match_here_iff; now exists mid, post).
           congruence.
        -- inversion H; subst. now exists pre, mid, post.
Qed.

(** ** Induction on metadata trees *)

Lemma value_ind (P : value -> Prop)
  (Hdict : forall items, Forall (fun kv => P (snd kv)) items -> P (VDict items))
  (Hlist : forall elems, Forall P elems -> P (VList elems))
  (Hstr : forall s, P (VStr s))
  (Hscalar : forall x, P (VScalar x))
  (Htuple : forall elems, Forall P elems -> P (VTuple elems)) :
  forall v, P v.
Proof.
  fix IH 1. intros [items|elems|s|x|elems].
  - apply Hdict. induction items as [|[k v] items IHitems]; constructor.
    + apply IH.
    + exact IHitems.
  - apply Hlist. induction elems as [|v elems IHelems]; constructor.
    + apply IH.
    + exact IHelems.
  - apply Hstr.
  - apply Hscalar.
  - apply Htuple. induction elems as [|v elems IHelems]; constructor.
    + apply IH.
    + exact IHelems.
Qed.

(** ** The metadata scanner *)

Lemma scan_str_eq (value path : str) (ind : list str) :
  scan_str value path ind = ind ++ length_hit value path ++ pattern_hits value path.
Proof.
  unfold scan_str, length_hit, pattern_hits.
  set (start := if 5000 <? len value then _ else ind).
  assert (Hstart : start = ind ++ (if 5000 <? len value
                                   then [long_value_msg path (len value)]
                                   else [])).
  { subst start. destruct (5000 <? len value); [reflexivity|].
    now rewrite app_nil_r. }
  rewrite Hstart, app_assoc.
  generalize (ind ++ (if 5000 <? len value
                      then [long_value_msg path (len value)] else [])).
  generalize SUSPICIOUS_METADATA_PATTERNS as table.
  induction table as [|[pattern desc] table IH]; intros acc; simpl.
  - now rewrite app_nil_r.
  - rewrite IH. destruct (re_search pattern value); simpl.
    + now rewrite <- app_assoc.
    + reflexivity.
Qed.

Lemma recursive_scan_app (v : value) :
  forall path ind, recursive_scan v path ind = ind ++ recursive_scan v path [].
Proof.
  induction v as [items IH|elems IH|s|x|elems _] using value_ind;
    intros path ind; simpl.
  - revert ind. induction IH as [|[k v] items Hv _ IHitems]; intros ind.
    + now rewrite app_nil_r.
    + simpl in Hv. rewrite IHitems.
      rewrite (IHitems (recursive_scan v (child_key path k) [])).
      rewrite (Hv _ ind). now rewrite app_assoc.
  - generalize 0 as i. revert ind.
    induction IH as [|v elems Hv _ IHelems]; intros ind i.
    + now rewrite app_nil_r.
    + rewrite IHelems.
      rewrite (IHelems (recursive_scan v (child_index path i) [])).
      rewrite (Hv _ ind). now rewrite app_assoc.
  - rewrite scan_str_eq. now rewrite (scan_str_eq s path []).
  - now rewrite app_nil_r.
  - now rewrite app_nil_r.
Qed.

Lemma recursive_scan_dict (items : list (str * value)) (path : str) :
  recursive_scan (VDict items) path [] =
  flat_map (fun kv => recursive_scan (snd kv) (child_key path (fst kv)) []) items.
Proof.
  simpl. induction items as [|[k v] items IH]; [reflexivity|].
  simpl. rewrite <- IH.
  pose proof (recursive_scan_app (VDict items) path
                (recursive_scan v (child_key path k) [])) as H.
  simpl in H. exact H.
Qed.

Lemma recursive_scan_list (elems : list value) (path : str) :
  recursive_scan (VList elems) path [] =
  flat_map (fun iv => recursive_scan (snd iv) (child_index path (fst iv)) [])
    (enumerate_from 0 elems).
Proof.
  simpl. generalize 0 as i.
  induction elems as [|v elems IH]; intros i; [reflexivity|].
  simpl. rewrite <- IH. clear IH.
  generalize (recursive_scan v (child_index path i) []) as acc.
  generalize (N.succ i) as j.
  induction elems as [|v' elems IH]; intros j acc.
  - now rewrite app_nil_r.
  - rewrite IH.
    rewrite (IH (N.succ j) (recursive_scan v' (child_index path j) [])).
    rewrite (recursive_scan_app v' (child_index path j) acc).
    now rewrite app_assoc.
Qed.

Lemma In_enumerate_from (A : Type) (l : list A) :
  forall i j x,
    In (j, x) (enumerate_from i l) <->
    exists k, nth_error l k = Some x /\ j = i + N.of_nat k.
Proof.
  induction l as [|y l IH]; intros i j x; simpl.
  - split; [tauto|]. intros [[|k] [H _]]; discriminate.
  - rewrite IH. split.
    + intros [H|(k & Hk & ->)].
      * inversion H; subst. exists 0%nat. split; [reflexivity|lia].
      * exists (S k). split; [exact Hk|lia].
    + intros ([|k] & Hk & ->).
      * left. simpl in Hk. inversion Hk. f_equal. lia.
      * right. exists k. split; [exact Hk|lia].
Qed.

(** Every indicator comes from a string leaf, and every finding on a string
    leaf is an indicator. *)
Lemma In_recursive_scan (v : value) :
  forall path x,
    In x (recursive_scan v path []) <->
    exists p s, leaf_at v path p s /\ In x (scan_str s p []).
Proof.
  induction v as [items IH|elems IH|s|sc|elems _] using value_ind;
    intros path x.
  - rewrite recursive_scan_dict, in_flat_map. split.
    + intros ([k v] & Hin & Hx). simpl in Hx.
      rewrite Forall_forall in IH. apply (IH _ Hin) in Hx as (p & s & Hl & Hs).
      exists p, s. split; [|exact Hs]. eapply leaf_in_dict; eauto.
    + intros (p & s & Hl & Hs). inversion Hl; subst.
      exists (k, v). split; [assumption|]. simpl.
      rewrite Forall_forall in IH. apply (IH (k, v)); [assumption|].
      now exists p, s.
  - rewrite recursive_scan_list, in_flat_map. split.
    + intros ([i v] & Hin & Hx). simpl in Hx.
      apply In_enumerate_from in Hin as (k & Hk & ->). simpl in Hx.
      rewrite Forall_forall in IH.
      apply (IH v (nth_error_In _ _ Hk)) in Hx as (p & s & Hl & Hs).
      exists p, s. split; [|exact Hs]. eapply leaf_in_list; eauto.
    + intros (p & s & Hl & Hs). inversion Hl; subst.
      exists (N.of_nat i, v). split.
      * apply In_enumerate_from. exists i. split; [assumption|reflexivity].
      * simpl. rewrite Forall_forall in IH.
        apply (IH v); [eapply nth_error_In; eassumption|]. now exists p, s.
  - simpl. split.
    + intros H. exists path, s. split; [constructor|exact H].
    + intros (p & s' & Hl & Hs). inversion Hl; subst. exact Hs.
  - simpl. split; [tauto|]. intros (p & s & Hl & _). inversion Hl.
  - simpl. split; [tauto|]. intros (p & s & Hl & _). inversion Hl.
Qed.

Lemma In_scan_str (s p x : str) :
  In x (scan_str s p []) <->
  (5000 < len s /\ x = long_value_msg p (len s))
  \/ (exists pattern desc,
         In (pattern, desc) SUSPICIOUS_METADATA_PATTERNS
         /\ re_search pattern s = true /\ x = detected_msg desc p).
Proof.
  rewrite scan_str_eq. simpl. rewrite in_app_iff.
  unfold length_hit, pattern_hits. rewrite in_flat_map.
  assert (Hlen : In x (if 5000 <? len s then [long_value_msg p (len s)] else [])
                 <-> 5000 < len s /\ x = long_value_msg p (len s)).
  { destruct (5000 <? len s) eqn:E.
    - apply N.ltb_lt in E. simpl. intuition congruence.
    - apply N.ltb_ge in E. simpl. split; [tauto|]. intros [H _]. lia. }
  rewrite Hlen. apply or_iff_compat_l. split.
  - intros ([pattern desc] & Hin & Hx). simpl in Hx.
    destruct (re_search pattern s) eqn:E; [|contradiction].
    destruct Hx as [<-|[]]. now exists pattern, desc.
  - intros (pattern & desc & Hin & E & ->). exists (pattern, desc).
    split; [exact Hin|]. simpl. rewrite E. now left.
Qed.

(** ** Indicator texts are told apart *)

Ltac eval_lit s :=
  let v := eval vm_compute in (lit s) in
  let E := fresh "E" in
  assert (E : lit s = v) by (vm_compute; reflexivity);
  rewrite E; clear E.

Ltac eval_lit_in s H :=
  let v := eval vm_compute in (lit s) in
  let E := fresh "E" in
  assert (E : lit s = v) by (vm_compute; reflexivity);
  rewrite E in H; clear E.

Lemma digits_range (d : Decimal.uint) (c : codepoint) :
  In c (digits d) -> 48 <= c <= 57.
Proof.
  induction d; simpl; intros H; try contradiction;
    (destruct H as [<-|H]; [lia | now apply IHd]).
Qed.

Lemma digits_inj (d d' : Decimal.uint) : digits d = digits d' -> d = d'.
Proof.
  revert d'; induction d; intros d'; destruct d'; simpl; intros H;
    try reflexivity; try discriminate;
    inversion H; f_equal; now apply IHd.
Qed.

Lemma str_of_int_inj (n m : N) : str_of_int n = str_of_int m -> n = m.
Proof.
  intros H. apply DecimalN.Unsigned.to_uint_inj. now apply digits_inj.
Qed.

Lemma str_of_int_range (n : N) (c : codepoint) :
  In c (str_of_int n) -> 48 <= c <= 57.
Proof. apply digits_range. Qed.


(** A separator that does not occur before it splits a sequence in one way. *)
Lemma split_at_first (A : Type) (x : A) (l1 l2 r1 r2 : list A) :
  ~ In x l1 -> ~ In x l2 -> l1 ++ x :: r1 = l2 ++ x :: r2 ->
  l1 = l2 /\ r1 = r2.
Proof.
  revert l2; induction l1 as [|a l1 IH]; intros [|b l2] H1 H2 H; simpl in H.
  - injection H as ->. now split.
  - injection H as <- _. exfalso. apply H2. now left.
  - injection H as -> _. exfalso. apply H1. now left.
  - injection H as -> H.
    destruct (IH l2) as [-> ->]; auto.
    + intros Hin. apply H1. now right.
    + intros Hin. apply H2. now right.
Qed.



Lemma ole_msg_inj (n m : N) : ole_msg n = ole_msg m -> n = m.
Proof.
  unfold ole_msg. intros H. apply app_inv_head in H.
  eval_lit_in " objeto(s) OLE incrustado(s)"%string H.
  apply split_at_first in H.
  - apply str_of_int_inj, H.
  - intros Hin. apply str_of_int_range in Hin. lia.
  - intros Hin. apply str_of_int_range in Hin. lia.
Qed.

Lemma vba_msg_not_ole (n : N) : vba_msg <> ole_msg n.
Proof.
  unfold vba_msg, ole_msg. intros H.
  assert (E : lit "Contiene Macros VBA (vbaProject.bin)"
              = lit "Contiene " ++ lit "Macros VBA (vbaProject.bin)")
    by (vm_compute; reflexivity).
  rewrite E in H. clear E.
  apply app_inv_head in H.
  eval_lit_in "Macros VBA (vbaProject.bin)"%string H.
  eval_lit_in " objeto(s) OLE incrustado(s)"%string H.
  destruct (str_of_int n) as [|c d] eqn:E; simpl in H.
  - discriminate.
  - assert (Hc : 48 <= c <= 57)
      by (apply (@str_of_int_range n); rewrite E; now left).
    inversion H. lia.
Qed.

(** ** Function bodies *)

Lemma for_each_appends (A : Type) (out : A -> list str) (body : A -> M unit) :
  (forall x st, body x st = (Ok tt, st ++ out x)) ->
  forall l st, for_each l body st = (Ok tt, st ++ flat_map out l).
Proof.
  intros Hbody. induction l as [|x l IH]; intros st; simpl.
  - unfold ret. now rewrite app_nil_r.
  - unfold bind. rewrite Hbody, IH. now rewrite app_assoc.
Qed.

Lemma list_set_nil (py : Interp) : list_set py [] = [].
Proof.
  destruct (list_set py []) as [|x l] eqn:E; [reflexivity|].
  exfalso. apply (list_set_In py [] x). rewrite E. now left.
Qed.


(** ** The PDF scan *)

Lemma pdf_keyword_step_eq (content : bytes) (kd : bytes * str) (st : list str) :
  pdf_keyword_step content kd st = (Ok tt, st ++ pdf_step_out content kd).
Proof.
  unfold pdf_step_out, pdf_keyword_step. destruct kd as [keyword desc].
  repeat match goal with
         | |- context [if ?b then _ else _] => destruct b
         end;
    unfold append, pass, ret; simpl; rewrite ?app_nil_r; reflexivity.
Qed.

Lemma pdf_findings_eq (content : bytes) :
  pdf_findings content = flat_map (pdf_step_out content) PDF_THREAT_KEYWORDS.
Proof.
  unfold pdf_findings.
  now rewrite (for_each_appends (pdf_step_out content)
                 (pdf_keyword_step content) (pdf_keyword_step_eq content)).
Qed.

Lemma scan_pdf_structure_read (py : Interp) (fs : FileSystem) (p : path)
  (content : bytes) :
  open_read fs p = Ok content ->
  scan_pdf_structure py fs p = Ok (list_set py (pdf_findings content)).
Proof.
  intros H. unfold scan_pdf_structure, call, bind, try_except, lift, get, ret.
  rewrite H. unfold pdf_findings.
  destruct (bytes_in (blit "jsPDF") content); unfold pass, ret;
    rewrite (for_each_appends (pdf_step_out content)
               (pdf_keyword_step content) (pdf_keyword_step_eq content));
    reflexivity.
Qed.

Lemma scan_pdf_structure_without_exemption_read (py : Interp) (fs : FileSystem)
  (p : path) (content : bytes) :
  open_read fs p = Ok content ->
  scan_pdf_structure_without_exemption py fs p
  = Ok (list_set py (pdf_findings content)).
Proof.
  intros H.
  unfold scan_pdf_structure_without_exemption, call, bind, try_except, lift,
    get, ret.
  rewrite H. unfold pdf_findings.
  rewrite (for_each_appends (pdf_step_out content)
             (pdf_keyword_step content) (pdf_keyword_step_eq content)).
  reflexivity.
Qed.

Lemma scan_pdf_structure_unreadable (py : Interp) (fs : FileSystem) (p : path)
  (e : exn) :
  open_read fs p = Raise e -> scan_pdf_structure py fs p = Ok [].
Proof.
  intros H. unfold scan_pdf_structure, call, bind, try_except, lift, get, ret.
  rewrite H. simpl. now rewrite list_set_nil.
Qed.

Lemma scan_pdf_structure_without_exemption_unreadable (py : Interp)
  (fs : FileSystem) (p : path) (e : exn) :
  open_read fs p = Raise e ->
  scan_pdf_structure_without_exemption py fs p = Ok [].
Proof.
  intros H.
  unfold scan_pdf_structure_without_exemption, call, bind, try_except, lift,
    get, ret.
  rewrite H. simpl. now rewrite list_set_nil.
Qed.

Ltac pdf_split content :=
  unfold pdf_findings, PDF_THREAT_KEYWORDS;
  cbv beta iota delta [for_each bind pdf_keyword_step];
  destruct (bytes_in (blit "/JavaScript") content),
           (bytes_in (blit "/JS") content),
           (bytes_in (blit "/OpenAction") content),
           (bytes_in (blit "/Launch") content),
           (bytes_in (blit "/RichMedia") content).

(** The findings of the keyword loop, keyword by keyword. *)
Lemma pdf_findings_closed (content : bytes) :
  pdf_findings content =
  (if bytes_in (blit "/JavaScript") content
   then [pdf_keyword_msg (lit "Contiene código JavaScript") (blit "/JavaScript")]
   else [])
  ++ (if bytes_in (blit "/JS") content
      then [pdf_keyword_msg (lit "Contiene código JavaScript") (blit "/JS")]
      else [])
  ++ (if bytes_in (blit "/OpenAction") content
         && (bytes_in (blit "/JavaScript") content
             || bytes_in (blit "/JS") content
             || bytes_in (blit "/Launch") content)
      then [pdf_combined_msg (lit "Ejecuta una acción al abrir el documento")]
      else [])
  ++ (if bytes_in (blit "/Launch") content
      then [pdf_keyword_msg (lit "Intenta lanzar un programa externo")
              (blit "/Launch")]
      else [])
  ++ (if bytes_in (blit "/RichMedia") content
      then [pdf_keyword_msg
              (lit "Contenido multimedia enriquecido (posible vector de ataque)")
              (blit "/RichMedia")]
      else []).
Proof.
  pdf_split content; vm_compute; reflexivity.
Qed.

Lemma In_if_singleton (b : bool) (m x : str) :
  In x (if b then [m] else []) <-> b = true /\ x = m.
Proof.
  destruct b; simpl; intuition congruence.
Qed.

Ltac str_neq :=
  let H := fresh in
  intros H; apply str_eqb_iff in H; vm_compute in H; discriminate H.

Lemma In_pdf_findings (content : bytes) (x : str) :
  In x (pdf_findings content) <->
  (bytes_in (blit "/JavaScript") content = true
   /\ x = pdf_keyword_msg (lit "Contiene código JavaScript") (blit "/JavaScript"))
  \/ (bytes_in (blit "/JS") content = true
      /\ x = pdf_keyword_msg (lit "Contiene código JavaScript") (blit "/JS"))
  \/ (bytes_in (blit "/OpenAction") content = true
      /\ (bytes_in (blit "/JavaScript") content = true
          \/ bytes_in (blit "/JS") content = true
          \/ bytes_in (blit "/Launch") content = true)
      /\ x = pdf_combined_msg (lit "Ejecuta una acción al abrir el documento"))
  \/ (bytes_in (blit "/Launch") content = true
      /\ x = pdf_keyword_msg (lit "Intenta lanzar un programa externo")
               (blit "/Launch"))
  \/ (bytes_in (blit "/RichMedia") content = true
      /\ x = pdf_keyword_msg
               (lit "Contenido multimedia enriquecido (posible vector de ataque)")
               (blit "/RichMedia")).
Proof.
  rewrite pdf_findings_closed, !in_app_iff, !In_if_singleton.
  rewrite andb_true_iff, !orb_true_iff. tauto.
Qed.

(** ** The Office scan *)

Lemma scan_office_structure_not_zip (fs : FileSystem) (p : path) :
  is_zipfile fs p = false -> scan_office_structure fs p = Ok [].
Proof.
  intros H. unfold scan_office_structure, call, bind, try_except, ret.
  rewrite H. reflexivity.
Qed.

Lemma scan_office_structure_corrupt (fs : FileSystem) (p : path) (e : exn) :
  is_zipfile fs p = true -> zip_namelist fs p = Raise e ->
  scan_office_structure fs p = Ok [].
Proof.
  intros Hz Hn.
  unfold scan_office_structure, call, bind, try_except, lift, ret, get.
  rewrite Hz, Hn. reflexivity.
Qed.

Lemma scan_office_structure_names (fs : FileSystem) (p : path)
  (file_names : list str) :
  is_zipfile fs p = true -> zip_namelist fs p = Ok file_names ->
  scan_office_structure fs p = Ok (office_findings file_names).
Proof.
  intros Hz Hn.
  unfold scan_office_structure, call, bind, try_except, lift, ret, get,
    office_findings.
  rewrite Hz, Hn. simpl. fold (ole_entries file_names).
  destruct (existsb _ file_names); destruct (ole_entries file_names);
    reflexivity.
Qed.

Lemma scan_pdf_structure_total (py : Interp) (fs : FileSystem) (p : path) :
  exists out, scan_pdf_structure py fs p = Ok out.
Proof.
  destruct (open_read fs p) as [content|e] eqn:E.
  - exists (list_set py (pdf_findings content)).
    now apply scan_pdf_structure_read.
  - exists []. now apply scan_pdf_structure_unreadable with e.
Qed.

Lemma scan_office_structure_total (fs : FileSystem) (p : path) :
  exists out, scan_office_structure fs p = Ok out.
Proof.
  destruct (is_zipfile fs p) eqn:Ez.
  - destruct (zip_namelist fs p) as [names|e] eqn:En.
    + exists (office_findings names). now apply scan_office_structure_names.
    + exists []. now apply scan_office_structure_corrupt with e.
  - exists []. now apply scan_office_structure_not_zip.
Qed.

(** ** The dispatcher and the aggregator *)

Lemma check_file_risk_eq (py : Interp) (fs : FileSystem) (p : path)
  (mime_type : str) :
  check_file_risk py fs p mime_type =
  if str_eqb mime_type (lit "application/pdf") then scan_pdf_structure py fs p
  else if existsb (str_eqb mime_type) OOXML_MIME_TYPES
       then scan_office_structure fs p
       else Ok [].
Proof.
  unfold check_file_risk, call, bind, try_except, lift, get, ret, extend, pass.
  destruct (str_eqb mime_type (lit "application/pdf")).
  - destruct (scan_pdf_structure_total py fs p) as [out ->]. reflexivity.
  - destruct (existsb (str_eqb mime_type) OOXML_MIME_TYPES).
    + destruct (scan_office_structure_total fs p) as [out ->]. reflexivity.
    + reflexivity.
Qed.

Lemma check_file_risk_total (py : Interp) (fs : FileSystem) (p : path)
  (mime_type : str) :
  exists found, check_file_risk py fs p mime_type = Ok found.
Proof.
  rewrite check_file_risk_eq.
  destruct (str_eqb mime_type (lit "application/pdf")).
  - apply scan_pdf_structure_total.
  - destruct (existsb (str_eqb mime_type) OOXML_MIME_TYPES).
    + apply scan_office_structure_total.
    + now exists [].
Qed.

Lemma check_file_risk_pdf (py : Interp) (fs : FileSystem) (p : path) :
  check_file_risk py fs p (lit "application/pdf") = scan_pdf_structure py fs p.
Proof.
  rewrite check_file_risk_eq.
  assert (E : str_eqb (lit "application/pdf") (lit "application/pdf") = true)
    by now apply str_eqb_iff.
  now rewrite E.
Qed.

Lemma check_file_risk_ooxml (py : Interp) (fs : FileSystem) (p : path)
  (mime_type : str) :
  In mime_type OOXML_MIME_TYPES ->
  check_file_risk py fs p mime_type = scan_office_structure fs p.
Proof.
  intros Hin. rewrite check_file_risk_eq.
  assert (E : str_eqb mime_type (lit "application/pdf") = false).
  { simpl in Hin.
    destruct Hin as [<-|[<-|[<-|[]]]]; vm_compute; reflexivity. }
  rewrite E.
  assert (E' : existsb (str_eqb mime_type) OOXML_MIME_TYPES = true).
  { apply existsb_exists. exists mime_type. split; [exact Hin|].
    now apply str_eqb_iff. }
  now rewrite E'.
Qed.

Lemma analyze_risk_eq (py : Interp) (fs : FileSystem) (p : path)
  (metadata : value) (mime_type : str) (found : list str) :
  check_file_risk py fs p mime_type = Ok found ->
  analyze_risk py fs p metadata mime_type =
  Ok {| is_suspicious := 0 <? len (check_metadata_risk metadata ++ found);
        indicators := check_metadata_risk metadata ++ found |}.
Proof.
  intros H. unfold analyze_risk, call, bind, lift, get, ret, extend.
  rewrite H. reflexivity.
Qed.

(** * The claims *)

(** C1. For every file path, metadata tree and MIME type, [analyze_risk]
    returns a report whose indicators are those of the metadata scanner
    followed, in order, by those of the structure scanner, and whose
    [is_suspicious] flag holds exactly when that sequence is not empty. *)
Theorem analyze_risk_report (py : Interp) (fs : FileSystem) (file_path : path)
  (metadata : value) (mime_type : str) :
  exists found r,
    check_file_risk py fs file_path mime_type = Ok found
    /\ analyze_risk py fs file_path metadata mime_type = Ok r
    /\ indicators r = check_metadata_risk metadata ++ found
    /\ (is_suspicious r = true <-> indicators r <> [])
    /\ (is_suspicious r = true <-> 0 < len (indicators r)).
Proof.
  destruct (check_file_risk_total py fs file_path mime_type) as [found Hf].
  exists found.
  exists {| is_suspicious := 0 <? len (check_metadata_risk metadata ++ found);
            indicators := check_metadata_risk metadata ++ found |}.
  split; [exact Hf|].
  split; [now apply analyze_risk_eq|]. simpl.
  split; [reflexivity|].
  rewrite N.ltb_lt. unfold len.
  split; [|reflexivity].
  destruct (check_metadata_risk metadata ++ found); simpl.
  - split; [lia | congruence].
  - split; [discriminate | lia].
Qed.

(** C2, the behaviour of the code on a read failure.  [check_file_risk]
    never raises; but under a MIME type that selects a structural scan, a
    file that cannot be read, or an archive whose directory cannot be read,
    leaves no indicator at all: the scanners discard the exception before
    the handler of [check_file_risk] can report it. *)
Theorem check_file_risk_read_error_silent (py : Interp) (fs : FileSystem)
  (file_path : path) (mime_type : str) (e : exn) :
  (exists found, check_file_risk py fs file_path mime_type = Ok found)
  /\ (mime_type = lit "application/pdf" -> open_read fs file_path = Raise e ->
      check_file_risk py fs file_path mime_type = Ok [])
  /\ (In mime_type OOXML_MIME_TYPES -> is_zipfile fs file_path = true ->
      zip_namelist fs file_path = Raise e ->
      check_file_risk py fs file_path mime_type = Ok []).
Proof.
  split; [apply check_file_risk_total|]. split.
  - intros -> H. rewrite check_file_risk_pdf.
    now apply scan_pdf_structure_unreadable with e.
  - intros Hin Hz Hn. rewrite (check_file_risk_ooxml py fs file_path Hin).
    now apply scan_office_structure_corrupt with e.
Qed.

Lemma check_file_risk_read_error_silent_witness :
  check_file_risk py_insertion_order fs_unreadable (lit "/tmp/a.pdf")
    (lit "application/pdf") = Ok []
  /\ check_file_risk py_insertion_order fs_corrupt_zip (lit "/tmp/a.docx")
       (lit "application/vnd.openxmlformats-officedocument.wordprocessingml.document")
     = Ok [].
Proof.
  split.
  - refine (proj1 (proj2 (@check_file_risk_read_error_silent
                            py_insertion_order fs_unreadable (lit "/tmp/a.pdf")
                            (lit "application/pdf")
                            (OSError (lit "[Errno 13] Permission denied"))))
                _ _).
    + reflexivity.
    + reflexivity.
  - refine (proj2 (proj2 (@check_file_risk_read_error_silent
                            py_insertion_order fs_corrupt_zip (lit "/tmp/a.docx")
                            (lit "application/vnd.openxmlformats-officedocument.wordprocessingml.document")
                            (BadZipFile (lit "Bad magic number for central directory"))))
                _ _ _).
    + simpl. tauto.
    + reflexivity.
    + reflexivity.
Defined.

Ltac table_cases H :=
  unfold PDF_THREAT_KEYWORDS in H; cbn [In] in H;
  repeat (destruct H as [H|H]; [injection H as <- <-|]);
  [..|contradiction].

(** C3, as the code has it.  A keyword other than [/OpenAction] that occurs
    in the content yields its indicator, whatever else occurs; [/Launch]
    does so with or without [/OpenAction].  When [/OpenAction] occurs
    without [/JavaScript], [/JS] and [/Launch], nothing is reported for
    [/OpenAction]: the only indicator possible is that of [/RichMedia], and
    there is none when [/RichMedia] is absent too. *)
Theorem pdf_keyword_indicators (py : Interp) (fs : FileSystem)
  (file_path : path) (content : bytes) :
  open_read fs file_path = Ok content ->
  exists out,
    scan_pdf_structure py fs file_path = Ok out
    /\ (forall keyword desc,
           In (keyword, desc) PDF_THREAT_KEYWORDS ->
           keyword <> blit "/OpenAction" ->
           occurs_in keyword content ->
           In (pdf_keyword_msg desc keyword) out)
    /\ (occurs_in (blit "/OpenAction") content ->
        ~ occurs_in (blit "/JavaScript") content ->
        ~ occurs_in (blit "/JS") content ->
        ~ occurs_in (blit "/Launch") content ->
        (forall x, In x out ->
                   occurs_in (blit "/RichMedia") content
                   /\ x = pdf_keyword_msg
                            (lit "Contenido multimedia enriquecido (posible vector de ataque)")
                            (blit "/RichMedia"))
        /\ (~ occurs_in (blit "/RichMedia") content -> out = [])).
Proof.
  intros Hread. exists (list_set py (pdf_findings content)).
  split; [now apply scan_pdf_structure_read|]. split.
  - intros keyword desc Hin Hne Hocc.
    apply list_set_In, In_pdf_findings. apply bytes_in_iff in Hocc.
    table_cases Hin.
    + left. now split.
    + right. left. now split.
    + now contradiction Hne.
    + right. right. right. left. now split.
    + right. right. right. right. now split.
  - intros _ Hjv Hjs Hla.
    assert (Hall : forall x,
               In x (list_set py (pdf_findings content)) ->
               occurs_in (blit "/RichMedia") content
               /\ x = pdf_keyword_msg
                        (lit "Contenido multimedia enriquecido (posible vector de ataque)")
                        (blit "/RichMedia")).
    { intros x Hx. apply list_set_In, In_pdf_findings in Hx.
      rewrite !bytes_in_iff in Hx.
      destruct Hx as [[H _]|[[H _]|[(_ & H & _)|[[H _]|[H ->]]]]];
        try tauto. }
    split; [exact Hall|].
    intros Hri. destruct (list_set py (pdf_findings content)) as [|x l].
    + reflexivity.
    + exfalso. apply Hri. apply (Hall x). now left.
Qed.

Lemma pdf_keyword_indicators_witness :
  exists out,
    scan_pdf_structure py_insertion_order (fs_plain pdf_js_launch)
      (lit "a.pdf") = Ok out
    /\ In (pdf_keyword_msg (lit "Intenta lanzar un programa externo")
             (blit "/Launch")) out.
Proof.
  destruct (@pdf_keyword_indicators py_insertion_order (fs_plain pdf_js_launch)
              (lit "a.pdf") pdf_js_launch eq_refl) as (out & Hout & Hkw & _).
  exists out. split; [exact Hout|].
  apply Hkw.
  - do 3 right. left. reflexivity.
  - intros H. apply (f_equal (bytes_eqb (blit "/Launch"))) in H.
    vm_compute in H. discriminate H.
  - apply bytes_in_iff. vm_compute. reflexivity.
Defined.

(** C3 as stated fails: [/OpenAction] without [/JavaScript], [/JS] and
    [/Launch], but with [/RichMedia], yields one indicator, not none. *)
Lemma pdf_openaction_richmedia_counterexample :
  occurs_in (blit "/OpenAction") pdf_openaction_richmedia
  /\ ~ occurs_in (blit "/JavaScript") pdf_openaction_richmedia
  /\ ~ occurs_in (blit "/JS") pdf_openaction_richmedia
  /\ ~ occurs_in (blit "/Launch") pdf_openaction_richmedia
  /\ scan_pdf_structure py_insertion_order (fs_plain pdf_openaction_richmedia)
       (lit "a.pdf")
     = Ok [pdf_keyword_msg
             (lit "Contenido multimedia enriquecido (posible vector de ataque)")
             (blit "/RichMedia")]
  /\ scan_pdf_structure py_insertion_order (fs_plain pdf_openaction_richmedia)
       (lit "a.pdf") <> Ok [].
Proof.
  split; [|split; [|split; [|split; [|split]]]].
  - apply bytes_in_iff. vm_compute. reflexivity.
  - intros H. apply bytes_in_iff in H. vm_compute in H. discriminate H.
  - intros H. apply bytes_in_iff in H. vm_compute in H. discriminate H.
  - intros H. apply bytes_in_iff in H. vm_compute in H. discriminate H.
  - vm_compute. reflexivity.
  - vm_compute. discriminate.
Qed.

(** C4. When the content holds both [/OpenAction] and [/JavaScript], the
    combined indicator occurs exactly once in the output, the plain
    per-keyword form for [/OpenAction] does not occur, and every other
    indicator is the per-keyword indicator of another keyword. *)
Theorem pdf_openaction_combined_once (py : Interp) (fs : FileSystem)
  (file_path : path) (content : bytes) :
  open_read fs file_path = Ok content ->
  occurs_in (blit "/OpenAction") content ->
  occurs_in (blit "/JavaScript") content ->
  exists out,
    scan_pdf_structure py fs file_path = Ok out
    /\ count_occ str_eq_dec out
         (pdf_combined_msg (lit "Ejecuta una acción al abrir el documento"))
       = 1%nat
    /\ ~ In (pdf_keyword_msg (lit "Ejecuta una acción al abrir el documento")
               (blit "/OpenAction")) out
    /\ (forall x, In x out ->
          x = pdf_combined_msg (lit "Ejecuta una acción al abrir el documento")
          \/ exists keyword desc,
               In (keyword, desc) PDF_THREAT_KEYWORDS
               /\ keyword <> blit "/OpenAction"
               /\ occurs_in keyword content
               /\ x = pdf_keyword_msg desc keyword).
Proof.
  intros Hread Hoa Hjv. exists (list_set py (pdf_findings content)).
  split; [now apply scan_pdf_structure_read|].
  apply bytes_in_iff in Hoa, Hjv. split; [|split].
  - apply NoDup_count_occ'; [apply list_set_NoDup|].
    apply list_set_In, In_pdf_findings. right. right. left. tauto.
  - intros H. apply list_set_In, In_pdf_findings in H.
    destruct H as [[_ H]|[[_ H]|[(_ & _ & H)|[[_ H]|[_ H]]]]];
      revert H; str_neq.
  - intros x Hx. apply list_set_In, In_pdf_findings in Hx.
    assert (Hne : forall k, bytes_eqb k (blit "/OpenAction") = false ->
                            k <> blit "/OpenAction").
    { intros k E ->.
      assert (bytes_eqb (blit "/OpenAction") (blit "/OpenAction") = true)
        by (vm_compute; reflexivity).
      congruence. }
    destruct Hx as [[H ->]|[[H ->]|[(_ & _ & ->)|[[H ->]|[H ->]]]]].
    + right. exists (blit "/JavaScript"), (lit "Contiene código JavaScript").
      repeat split;
        [left; reflexivity | now apply Hne | now apply bytes_in_iff].
    + right. exists (blit "/JS"), (lit "Contiene código JavaScript").
      repeat split;
        [right; left; reflexivity | now apply Hne | now apply bytes_in_iff].
    + now left.
    + right. exists (blit "/Launch"), (lit "Intenta lanzar un programa externo").
      repeat split;
        [do 3 right; left; reflexivity | now apply Hne | now apply bytes_in_iff].
    + right.
      exists (blit "/RichMedia"),
        (lit "Contenido multimedia enriquecido (posible vector de ataque)").
      repeat split;
        [do 4 right; left; reflexivity | now apply Hne | now apply bytes_in_iff].
Qed.

Lemma pdf_openaction_combined_once_witness :
  exists out,
    scan_pdf_structure py_reverse_order (fs_plain pdf_openaction_javascript)
      (lit "a.pdf") = Ok out
    /\ count_occ str_eq_dec out
         (pdf_combined_msg (lit "Ejecuta una acción al abrir el documento"))
       = 1%nat.
Proof.
  destruct (@pdf_openaction_combined_once py_reverse_order
              (fs_plain pdf_openaction_javascript) (lit "a.pdf")
              pdf_openaction_javascript eq_refl)
    as (out & Hout & Hcount & _).
  - apply bytes_in_iff. vm_compute. reflexivity.
  - apply bytes_in_iff. vm_compute. reflexivity.
  - exists out. split; [exact Hout | exact Hcount].
Defined.

(** C5. On a file that holds the [jsPDF] marker the scan returns what the
    scan without the exemption branch returns, and each keyword other than
    [/OpenAction] is reported exactly when it occurs in the content. *)
Theorem pdf_jspdf_exemption_inert (py : Interp) (fs : FileSystem)
  (file_path : path) (content : bytes) :
  open_read fs file_path = Ok content ->
  occurs_in (blit "jsPDF") content ->
  scan_pdf_structure py fs file_path
  = scan_pdf_structure_without_exemption py fs file_path
  /\ exists out,
       scan_pdf_structure py fs file_path = Ok out
       /\ forall keyword desc,
            In (keyword, desc) PDF_THREAT_KEYWORDS ->
            keyword <> blit "/OpenAction" ->
            (In (pdf_keyword_msg desc keyword) out <-> occurs_in keyword content).
Proof.
  intros Hread _. split.
  - rewrite (scan_pdf_structure_read py fs file_path Hread).
    now rewrite (scan_pdf_structure_without_exemption_read py fs file_path Hread).
  - exists (list_set py (pdf_findings content)).
    split; [now apply scan_pdf_structure_read|].
    intros keyword desc Hin Hne.
    rewrite list_set_In, In_pdf_findings, <- bytes_in_iff.
    table_cases Hin; try (now contradiction Hne);
      (split;
       [ intros [[H E]|[[H E]|[(_ & _ & E)|[[H E]|[H E]]]]];
         first [ exact H | exfalso; revert E; str_neq ]
       | intros H ]).
    + left. now split.
    + right. left. now split.
    + do 3 right. left. now split.
    + do 4 right. now split.
Qed.

Lemma pdf_jspdf_exemption_inert_witness :
  scan_pdf_structure py_insertion_order (fs_plain pdf_jspdf) (lit "a.pdf")
  = scan_pdf_structure_without_exemption py_insertion_order (fs_plain pdf_jspdf)
      (lit "a.pdf").
Proof.
  refine (proj1 (@pdf_jspdf_exemption_inert py_insertion_order
                   (fs_plain pdf_jspdf) (lit "a.pdf") pdf_jspdf eq_refl _)).
  apply bytes_in_iff. vm_compute. reflexivity.
Defined.

(** ** Claims on the metadata scanner *)

(** The scanner's rendering of a number is the library's. *)
Lemma digits_decimal (d : Decimal.uint) :
  digits d = map N_of_ascii (list_ascii_of_string (NilEmpty.string_of_uint d)).
Proof. induction d; simpl; [reflexivity | f_equal; exact IHd ..]. Qed.

Lemma str_of_int_decimal (n : N) : str_of_int n = decimal n.
Proof. unfold str_of_int, decimal. apply digits_decimal. Qed.


(** The paths that the scanner accumulates are the paths of the places. *)
Lemma child_key_path_from (path k : str) (steps : list step) :
  path_from (child_key path k) steps = path_from path (Key k :: steps).
Proof.
  unfold child_key. eval_lit "."%string.
  destruct path as [|c path].
  - destruct k as [|d k]; reflexivity.
  - cbn [path_from app path_tail]. now rewrite <- !app_assoc.
Qed.

Lemma child_index_path_from (path : str) (i : nat) (steps : list step) :
  path_from (child_index path (N.of_nat i)) steps
  = path_from path (Index i :: steps).
Proof.
  unfold child_index. eval_lit "["%string. eval_lit "]"%string.
  rewrite str_of_int_decimal.
  destruct path as [|c path].
  - cbn [path_from app path_of]. rewrite <- app_assoc. reflexivity.
  - cbn [path_from app path_tail]. rewrite <- !app_assoc. cbn [app].
    rewrite <- ?app_assoc. reflexivity.
Qed.

Lemma path_from_nil (path : str) : path_from path [] = path.
Proof. destruct path; [reflexivity|]. cbn [path_from path_tail]. apply app_nil_r. Qed.



Lemma leaf_at_located (v : value) (path p s : str) :
  leaf_at v path p s ->
  exists steps, located v steps s /\ p = path_from path steps.
Proof.
  induction 1 as [s path|items k v path p s Hin _ IH|elems i v path p s Hnth _ IH].
  - exists []. split; [constructor|]. now rewrite path_from_nil.
  - destruct IH as (steps & Hloc & ->). exists (Key k :: steps).
    split; [econstructor; eassumption|]. apply child_key_path_from.
  - destruct IH as (steps & Hloc & ->). exists (Index i :: steps).
    split; [econstructor; eassumption|]. apply child_index_path_from.
Qed.

Lemma leaf_at_has_string (v : value) (path p s : str) :
  leaf_at v path p s -> no_strings v = false.
Proof.
  induction 1 as [s path|items k v path p s Hin _ IH|elems i v path p s Hnth _ IH].
  - reflexivity.
  - simpl. induction items as [|[k' v'] items IHitems]; [contradiction|].
    destruct Hin as [E|Hin].
    + injection E as -> ->. now rewrite IH.
    + rewrite (IHitems Hin). apply andb_false_r.
  - simpl. apply nth_error_In in Hnth.
    induction elems as [|v' elems IHelems]; [contradiction|].
    destruct Hnth as [->|Hin].
    + now rewrite IH.
    + rewrite (IHelems Hin). apply andb_false_r.
Qed.

Lemma In_check_metadata_risk (metadata : value) (x : str) :
  In x (check_metadata_risk metadata) <->
  exists p s, string_leaf metadata p s /\ In x (scan_str s p []).
Proof. apply In_recursive_scan. Qed.

(** C6. A metadata tree in which no string leaf is longer than 5000
    characters or matches a pattern of the table yields no indicator.
    Every indicator stems from a string leaf, so that numbers, booleans and
    null yield none at any depth: a tree without strings yields none. *)
Theorem benign_metadata_no_indicators (metadata : value) :
  ((forall p s, string_leaf metadata p s ->
                len s <= 5000
                /\ forall pattern desc,
                     In (pattern, desc) SUSPICIOUS_METADATA_PATTERNS ->
                     ~ matches_in pattern s) ->
   check_metadata_risk metadata = [])
  /\ (forall x, In x (check_metadata_risk metadata) ->
                exists p s, string_leaf metadata p s /\ In x (scan_str s p []))
  /\ (no_strings metadata = true -> check_metadata_risk metadata = []).
Proof.
  split; [|split].
  - intros Hbenign.
    destruct (check_metadata_risk metadata) as [|x l] eqn:E; [reflexivity|].
    exfalso.
    assert (Hx : In x (check_metadata_risk metadata)) by (rewrite E; now left).
    apply In_check_metadata_risk in Hx as (p & s & Hleaf & Hx).
    destruct (Hbenign p s Hleaf) as [Hlen Hpat].
    apply In_scan_str in Hx as [[Hlong _]|(pattern & desc & Hin & Hm & _)].
    + lia.
    + apply (Hpat pattern desc Hin). now apply re_search_iff.
  - intros x Hx. now apply In_check_metadata_risk.
  - intros Hno.
    destruct (check_metadata_risk metadata) as [|x l] eqn:E; [reflexivity|].
    exfalso.
    assert (Hx : In x (check_metadata_risk metadata)) by (rewrite E; now left).
    apply In_check_metadata_risk in Hx as (p & s & Hleaf & _).
    apply leaf_at_has_string in Hleaf. congruence.
Qed.

Lemma benign_metadata_no_indicators_witness :
  check_metadata_risk
    (VDict [(lit "title", VStr (lit "Annual report"));
            (lit "pages", VScalar (PyInt 3))]) = [].
Proof.
  refine (proj1 (@benign_metadata_no_indicators _) _).
  intros p s Hleaf.
  assert (Hs : s = lit "Annual report").
  { inversion Hleaf as [| items k v path p' s' Hin Hsub |]; subst.
    destruct Hin as [E|[E|[]]]; injection E as <- <-; inversion Hsub.
    reflexivity. }
  subst s. split.
  - vm_compute. discriminate.
  - intros pattern desc Hin Hm. apply re_search_iff in Hm.
    unfold SUSPICIOUS_METADATA_PATTERNS in Hin. cbn [In] in Hin.
    repeat (destruct Hin as [Hin|Hin];
            [injection Hin as <- <-; vm_compute in Hm; discriminate Hm|]).
    contradiction.
Defined.







(** ** Claims on the Office scan *)

Lemma count_occ_vba_part (b : bool) (n : N) :
  count_occ str_eq_dec (if b then [vba_msg] else []) (ole_msg n) = 0%nat.
Proof.
  destruct b; [|reflexivity]. cbn [count_occ].
  destruct (str_eq_dec vba_msg (ole_msg n)) as [E|_]; [|reflexivity].
  exfalso. revert E. apply vba_msg_not_ole.
Qed.

Lemma count_occ_ole_part (c : list str) (n : N) :
  count_occ str_eq_dec
    (match c with [] => [] | _ :: _ => [ole_msg (len c)] end) (ole_msg n)
  = if (0 <? n) && (n =? len c) then 1%nat else 0%nat.
Proof.
  destruct c as [|x c].
  - cbn [count_occ]. destruct (0 <? n) eqn:E; [|reflexivity].
    apply N.ltb_lt in E. destruct (n =? len []) eqn:E'; [|reflexivity].
    apply N.eqb_eq in E'. unfold len in E'. cbn [length N.of_nat] in E'. lia.
  - cbn [count_occ].
    destruct (str_eq_dec (ole_msg (len (x :: c))) (ole_msg n)) as [E|E].
    + apply ole_msg_inj in E. subst n.
      rewrite N.eqb_refl.
      assert (H : (0 <? len (x :: c)) = true)
        by (apply N.ltb_lt; unfold len; cbn [length]; lia).
      now rewrite H.
    + destruct (n =? len (x :: c)) eqn:E'.
      * apply N.eqb_eq in E'. subst n. now contradiction E.
      * now rewrite andb_false_r.
Qed.

(** C9. A file that is not a ZIP container yields an empty list.  For an
    archive with entry names [file_names], the VBA indicator is emitted
    exactly when some name ends with [vbaProject.bin], and the indicator of
    embedded OLE objects with count [n] occurs once exactly when [n] is
    positive and is the number of names that contain
    [embeddings/oleObject]; it never occurs twice.  Three such entries
    yield one indicator with count 3. *)
Theorem office_structure_indicators :
  (forall fs p, is_zipfile fs p = false -> scan_office_structure fs p = Ok [])
  /\ (forall fs p file_names,
         is_zipfile fs p = true ->
         zip_namelist fs p = Ok file_names ->
         exists out,
           scan_office_structure fs p = Ok out
           /\ (In vba_msg out <->
               exists name, In name file_names
                            /\ ends_with name (lit "vbaProject.bin"))
           /\ (forall n, count_occ str_eq_dec out (ole_msg n) = 1%nat <->
                         0 < n /\ n = len (ole_entries file_names))
           /\ (forall n, (count_occ str_eq_dec out (ole_msg n) <= 1)%nat)
           /\ (forall f, In f (ole_entries file_names) <->
                         In f file_names
                         /\ occurs_in (lit "embeddings/oleObject") f))
  /\ scan_office_structure
       (fs_zip [lit "[Content_Types].xml"; lit "word/document.xml";
                lit "word/vbaProject.bin"]) (lit "a.docx")
     = Ok [lit "Contiene Macros VBA (vbaProject.bin)"]
  /\ scan_office_structure
       (fs_zip [lit "word/document.xml";
                lit "word/embeddings/oleObject1.bin";
                lit "word/embeddings/oleObject2.bin";
                lit "word/embeddings/oleObject3.bin"]) (lit "a.docx")
     = Ok [lit "Contiene 3 objeto(s) OLE incrustado(s)"].
Proof.
  split; [|split; [|split]].
  - intros fs p. apply scan_office_structure_not_zip.
  - intros fs p file_names Hz Hn. exists (office_findings file_names).
    split; [now apply scan_office_structure_names|].
    unfold office_findings. split; [|split; [|split]].
    + rewrite in_app_iff. split.
      * intros [H|H].
        -- destruct (existsb _ file_names) eqn:E; [|contradiction].
           apply existsb_exists in E as (name & Hin & E).
           exists name. split; [exact Hin | now apply str_endswith_iff].
        -- exfalso. destruct (ole_entries file_names); [contradiction|].
           destruct H as [H|[]]. symmetry in H. revert H.
           apply vba_msg_not_ole.
      * intros (name & Hin & E). left.
        assert (Ex : existsb
                       (fun name => str_endswith name (lit "vbaProject.bin"))
                       file_names = true).
        { apply existsb_exists. exists name.
          split; [exact Hin | now apply str_endswith_iff]. }
        rewrite Ex. now left.
    + intros n. rewrite count_occ_app, count_occ_vba_part, count_occ_ole_part.
      cbn [Nat.add].
      destruct ((0 <? n) && (n =? len (ole_entries file_names))) eqn:E.
      * apply andb_true_iff in E as [E1 E2].
        apply N.ltb_lt in E1. apply N.eqb_eq in E2. tauto.
      * split; [discriminate|]. intros [E1 E2].
        apply N.ltb_lt in E1. apply N.eqb_eq in E2.
        rewrite E1, E2 in E. discriminate.
    + intros n. rewrite count_occ_app, count_occ_vba_part, count_occ_ole_part.
      destruct ((0 <? n) && (n =? len (ole_entries file_names))); lia.
    + intros f. unfold ole_entries. rewrite filter_In, str_in_iff. tauto.
  - vm_compute. reflexivity.
  - vm_compute. reflexivity.
Qed.

Lemma office_structure_indicators_witness :
  scan_office_structure (fs_plain (blit "plain text")) (lit "a.doc") = Ok []
  /\ exists out,
       scan_office_structure
         (fs_zip [lit "xl/vbaProject.bin"; lit "xl/embeddings/oleObject1.bin"])
         (lit "a.xlsx") = Ok out
       /\ count_occ str_eq_dec out (ole_msg 1) = 1%nat.
Proof.
  split.
  - apply (proj1 office_structure_indicators). reflexivity.
  - destruct (proj1 (proj2 office_structure_indicators)
                (fs_zip [lit "xl/vbaProject.bin";
                         lit "xl/embeddings/oleObject1.bin"])
                (lit "a.xlsx") _ eq_refl eq_refl)
      as (out & Hout & _ & Hole & _).
    exists out. split; [exact Hout|].
    apply Hole. vm_compute. split; reflexivity.
Defined.

(** ** Determinism *)








(** * Further properties *)

Unset Implicit Arguments.

(** ** Dictionaries *)

Lemma str_eqb_refl (s : str) : str_eqb s s = true.
Proof. now apply str_eqb_iff. Qed.

Lemma str_eqb_neq (s t : str) : str_eqb s t = false <-> s <> t.
Proof.
  destruct (str_eqb s t) eqn:E.
  - apply str_eqb_iff in E. split; [discriminate | congruence].
  - split; [|reflexivity]. intros _ H. apply str_eqb_iff in H. congruence.
Qed.

Lemma dict_get_set_same (V : Type) (d : list (str * V)) (k : str) (v : V) :
  dict_get (dict_set d k v) k = Some v.
Proof.
  induction d as [|[k' v'] d IH]; simpl.
  - now rewrite str_eqb_refl.
  - destruct (str_eqb k' k) eqn:E; simpl; rewrite E; [reflexivity | exact IH].
Qed.

Lemma dict_get_set_other (V : Type) (d : list (str * V)) (k k' : str) (v : V) :
  k <> k' -> dict_get (dict_set d k v) k' = dict_get d k'.
Proof.
  intros Hne. induction d as [|[k0 v0] d IH]; simpl.
  - apply str_eqb_neq in Hne. now rewrite Hne.
  - destruct (str_eqb k0 k) eqn:E; simpl.
    + apply str_eqb_iff in E. subst k0.
      apply str_eqb_neq in Hne. now rewrite Hne.
    + now rewrite IH.
Qed.

Lemma keys_dict_set (V : Type) (d : list (str * V)) (k : str) (v : V) :
  keys (dict_set d k v) = if existsb (fun k' => str_eqb k' k) (keys d)
                          then keys d else keys d ++ [k].
Proof.
  unfold keys. induction d as [|[k' v'] d IH]; simpl; [reflexivity|].
  destruct (str_eqb k' k) eqn:E; simpl; [reflexivity|].
  rewrite IH. now destruct (existsb _ (map fst d)).
Qed.

Lemma existsb_str_eqb (k : str) (l : list str) :
  existsb (fun k' => str_eqb k' k) l = true <-> In k l.
Proof.
  rewrite existsb_exists. split.
  - intros (k' & Hin & E). apply str_eqb_iff in E. now subst.
  - intros Hin. exists k. split; [exact Hin | apply str_eqb_refl].
Qed.

Lemma In_keys_dict_set (V : Type) (d : list (str * V)) (k k' : str) (v : V) :
  In k' (keys (dict_set d k v)) <-> In k' (keys d) \/ k' = k.
Proof.
  rewrite keys_dict_set.
  destruct (existsb (fun k0 => str_eqb k0 k) (keys d)) eqn:E.
  - apply existsb_str_eqb in E. split; [tauto|]. intros [H| ->]; assumption.
  - rewrite in_app_iff. simpl. intuition.
Qed.

Lemma NoDup_keys_dict_set (V : Type) (d : list (str * V)) (k : str) (v : V) :
  NoDup (keys d) -> NoDup (keys (dict_set d k v)).
Proof.
  intros Hd. rewrite keys_dict_set.
  destruct (existsb (fun k0 => str_eqb k0 k) (keys d)) eqn:E; [exact Hd|].
  apply NoDup_app; [exact Hd | repeat constructor; intros [] |].
  intros x Hx [<-|[]].
  apply existsb_str_eqb in Hx. congruence.
Qed.

Lemma dict_set_fresh (V : Type) (d : list (str * V)) (k : str) (v : V) :
  ~ In k (keys d) -> dict_set d k v = d ++ [(k, v)].
Proof.
  unfold keys. induction d as [|[k' v'] d IH]; simpl; intros Hk; [reflexivity|].
  destruct (str_eqb k' k) eqn:E.
  - apply str_eqb_iff in E. tauto.
  - rewrite IH; [reflexivity | tauto].
Qed.

Lemma dict_get_In (V : Type) (d : list (str * V)) (k : str) (v : V) :
  dict_get d k = Some v -> In (k, v) d.
Proof.
  induction d as [|[k' v'] d IH]; simpl; [discriminate|].
  destruct (str_eqb k' k) eqn:E.
  - apply str_eqb_iff in E. intros [= ->]. left. now subst.
  - intros H. right. now apply IH.
Qed.

Lemma In_dict_get (V : Type) (d : list (str * V)) (k : str) (v : V) :
  NoDup (keys d) -> In (k, v) d -> dict_get d k = Some v.
Proof.
  unfold keys. induction d as [|[k' v'] d IH]; simpl; [tauto|].
  intros Hd [H|H].
  - injection H as -> ->. now rewrite str_eqb_refl.
  - destruct (str_eqb k' k) eqn:E.
    + apply str_eqb_iff in E. subst k'. inversion Hd as [|? ? Hnot _]; subst.
      exfalso. apply Hnot. apply (in_map fst) in H. exact H.
    + apply IH; [now inversion Hd | exact H].
Qed.

Lemma dict_get_None (V : Type) (d : list (str * V)) (k : str) :
  dict_get d k = None <-> ~ In k (keys d).
Proof.
  unfold keys. induction d as [|[k' v'] d IH]; simpl; [tauto|].
  destruct (str_eqb k' k) eqn:E.
  - apply str_eqb_iff in E. split; [discriminate | tauto].
  - apply str_eqb_neq in E. rewrite IH. tauto.
Qed.

Lemma fold_dict_set_rebuild (V : Type) (l acc : list (str * V)) :
  NoDup (keys (acc ++ l)) ->
  fold_left (fun d kv => dict_set d (fst kv) (snd kv)) l acc = acc ++ l.
Proof.
  revert acc. induction l as [|[k v] l IH]; intros acc Hd; simpl.
  - now rewrite app_nil_r.
  - assert (Hfresh : ~ In k (keys acc)).
    { unfold keys in *. rewrite map_app in Hd. simpl in Hd.
      apply NoDup_remove_2 in Hd. intros H. apply Hd.
      apply in_or_app. now left. }
    rewrite (dict_set_fresh _ acc k v Hfresh).
    rewrite IH; rewrite <- app_assoc; [reflexivity | exact Hd].
Qed.

Lemma fold_left_invariant (A B : Type) (P : A -> Prop) (f : A -> B -> A)
  (l : list B) (a : A) :
  P a -> (forall a b, P a -> P (f a b)) -> P (fold_left f l a).
Proof.
  intros Ha Hstep. revert a Ha.
  induction l as [|b l IH]; intros a Ha; simpl; [exact Ha|].
  apply IH. now apply Hstep.
Qed.

Lemma NoDup_keys_dict_literal (V : Type) (pairs : list (str * V)) :
  NoDup (keys (dict_literal pairs)).
Proof.
  unfold dict_literal.
  apply (fold_left_invariant _ _ (fun d => NoDup (keys d))).
  - constructor.
  - intros d kv Hd. now apply NoDup_keys_dict_set.
Qed.

(** ** [strip] *)

Lemma lstrip_with_split (drop : codepoint -> bool) (s : str) :
  exists pre, s = pre ++ lstrip_with drop s /\ forallb drop pre = true.
Proof.
  induction s as [|c s (pre & Hs & Hpre)]; simpl.
  - now exists [].
  - destruct (drop c) eqn:E.
    + exists (c :: pre). simpl. rewrite E, Hpre. split; [now f_equal|reflexivity].
    + now exists [].
Qed.

Lemma lstrip_with_idem (drop : codepoint -> bool) (s : str) :
  lstrip_with drop (lstrip_with drop s) = lstrip_with drop s.
Proof.
  induction s as [|c s IH]; simpl; [reflexivity|].
  destruct (drop c) eqn:E; [exact IH|]. simpl. now rewrite E.
Qed.

Lemma lstrip_with_head (drop : codepoint -> bool) (s : str) :
  lstrip_with drop s = s <->
  match s with [] => True | c :: _ => drop c = false end.
Proof.
  destruct s as [|c s]; simpl; [tauto|].
  destruct (drop c) eqn:E; [|tauto].
  split; [|discriminate]. intros H.
  destruct (lstrip_with_split drop s) as (pre & Hs & _).
  rewrite H in Hs. apply (f_equal (@length N)) in Hs.
  rewrite length_app in Hs. cbn [length] in Hs.
  exfalso. unfold codepoint in *. lia.
Qed.

Lemma strip_with_stripped (drop : codepoint -> bool) (s : str) :
  stripped drop (strip_with drop s).
Proof.
  unfold stripped, strip_with. rewrite rev_involutive, lstrip_with_idem.
  split; [|reflexivity].
  set (a := lstrip_with drop s).
  destruct (lstrip_with_split drop (rev a)) as (pre & Ha & _).
  set (b := lstrip_with drop (rev a)) in *.
  assert (Hab : a = rev b ++ rev pre).
  { rewrite <- (rev_involutive a), Ha. apply rev_app_distr. }
  apply lstrip_with_head.
  destruct (rev b) as [|c t] eqn:Eb; [exact I|].
  assert (Hhead : lstrip_with drop a = a) by apply lstrip_with_idem.
  apply lstrip_with_head in Hhead. rewrite Hab in Hhead. exact Hhead.
Qed.

Lemma stripped_strip_with (drop : codepoint -> bool) (s : str) :
  stripped drop s -> strip_with drop s = s.
Proof.
  intros [H1 H2]. unfold strip_with. rewrite H1, H2. apply rev_involutive.
Qed.

Lemma strip_with_idem (drop : codepoint -> bool) (s : str) :
  strip_with drop (strip_with drop s) = strip_with drop s.
Proof. apply stripped_strip_with, strip_with_stripped. Qed.

(** ** [normalize_metadata_dict] *)

Lemma In_dict_set (V : Type) (d : list (str * V)) (k k' : str) (v v' : V) :
  In (k, v) (dict_set d k' v') -> In (k, v) d \/ (k = k' /\ v = v').
Proof.
  induction d as [|[k0 v0] d IH]; simpl.
  - intros [H|[]]. injection H as <- <-. now right.
  - destruct (str_eqb k0 k') eqn:E.
    + apply str_eqb_iff in E. subst k0.
      intros [H|H]; [injection H as <- <-; now right | left; now right].
    + intros [H|H]; [left; now left|].
      destruct (IH H) as [H'|H']; [left; now right | now right].
Qed.

Lemma normalize_metadata_dict_clean_facts (metadata : list (str * option str)) :
  NoDup (keys (normalize_metadata_dict metadata))
  /\ forall k v,
       In (k, v) (normalize_metadata_dict metadata) ->
       stripped is_space k /\ stripped is_space v.
Proof.
  unfold normalize_metadata_dict.
  apply (fold_left_invariant _ _
           (fun d : list (str * str) =>
              NoDup (keys d)
              /\ forall k v, In (k, v) d ->
                             stripped is_space k /\ stripped is_space v)).
  - split; [constructor | intros k v []].
  - intros d [k0 [v0|]] [Hd Hs]; simpl; [|now split].
    split; [now apply NoDup_keys_dict_set|].
    intros k v Hin. apply In_dict_set in Hin as [Hin|[-> ->]].
    + now apply Hs.
    + split; apply strip_with_stripped.
Qed.

(** X1. The result of [normalize_metadata_dict] has distinct keys, and neither
    its keys nor its values begin or end with white space. *)
Theorem normalize_metadata_dict_clean (metadata : list (str * option str)) :
  NoDup (keys (normalize_metadata_dict metadata))
  /\ forall k v,
       In (k, v) (normalize_metadata_dict metadata) ->
       stripped is_space k /\ stripped is_space v.
Proof.
  apply normalize_metadata_dict_clean_facts.
Qed.

Lemma normalize_metadata_dict_clean_witness :
  stripped is_space (lit "Author")
  /\ stripped is_space (lit "Ada  Lovelace").
Proof.
  apply (proj2 (normalize_metadata_dict_clean
                  [(lit "  Author ", Some (lit " Ada  Lovelace  "));
                   (lit "Title", None)])).
  vm_compute. left. reflexivity.
Defined.

(** X2. Normalising an already normalised dictionary changes nothing. *)
Theorem normalize_metadata_dict_idempotent
  (metadata : list (str * option str)) :
  normalize_metadata_dict
    (map (fun kv => (fst kv, Some (snd kv))) (normalize_metadata_dict metadata))
  = normalize_metadata_dict metadata.
Proof.
  destruct (normalize_metadata_dict_clean_facts metadata) as [Hd Hs].
  set (r := normalize_metadata_dict metadata) in *.
  unfold normalize_metadata_dict at 1.
  assert (Hfold : forall l acc,
             (forall k v, In (k, v) l ->
                          stripped is_space k /\ stripped is_space v) ->
             fold_left
               (fun normalized (kv : str * option str) =>
                  match snd kv with
                  | None => normalized
                  | Some value =>
                      dict_set normalized (strip (fst kv)) (strip value)
                  end)
               (map (fun kv : str * str => (fst kv, Some (snd kv))) l) acc
             = fold_left (fun d kv => dict_set d (fst kv) (snd kv)) l acc).
  { induction l as [|[k v] l IH]; intros acc Hl; simpl; [reflexivity|].
    destruct (Hl k v (or_introl eq_refl)) as [Hk Hv].
    unfold strip. rewrite (stripped_strip_with _ _ Hk), (stripped_strip_with _ _ Hv).
    apply IH. intros k' v' Hin. apply Hl. now right. }
  rewrite (Hfold r [] Hs).
  apply (fold_dict_set_rebuild _ r []). exact Hd.
Qed.

(** X3. Looking a key up in the result gives the stripped value of the last
    item of the input whose value is not [None] and whose stripped key is
    that key; items whose value is [None] change nothing. *)
Theorem normalize_metadata_dict_last_wins
  (metadata : list (str * option str)) (k : str) :
  dict_get (normalize_metadata_dict metadata) k =
  match
    find (fun kv : str * option str =>
            match snd kv with
            | Some _ => str_eqb (strip (fst kv)) k
            | None => false
            end) (rev metadata)
  with
  | Some (_, Some v) => Some (strip v)
  | _ => None
  end.
Proof.
  unfold normalize_metadata_dict.
  induction metadata as [|[k0 v0] metadata IH] using rev_ind; [reflexivity|].
  rewrite fold_left_app, rev_app_distr. simpl.
  destruct v0 as [v0|]; simpl; [|exact IH].
  destruct (str_eqb (strip k0) k) eqn:E.
  - apply str_eqb_iff in E. subst k. apply dict_get_set_same.
  - apply str_eqb_neq in E. rewrite dict_get_set_other; [exact IH | exact E].
Qed.

(** ** [guess_extension_from_mime] *)

Lemma items_loop_spec (mime : str) (table : list (str * str)) :
  NoDup (keys table) ->
  (forall ext,
      (fix items_loop (items : list (str * str)) : option str :=
         match items with
         | [] => None
         | (ext, expected) :: items' =>
             if str_eqb expected mime then Some ext else items_loop items'
         end) table = Some ext ->
      dict_get table ext = Some mime)
  /\ ((fix items_loop (items : list (str * str)) : option str :=
         match items with
         | [] => None
         | (ext, expected) :: items' =>
             if str_eqb expected mime then Some ext else items_loop items'
         end) table = None <->
      forall ext, dict_get table ext <> Some mime).
Proof.
  induction table as [|[k v] table IH]; intros Hd.
  - split; [discriminate|]. split; [discriminate | reflexivity].
  - unfold keys in Hd. simpl in Hd. inversion Hd as [|? ? Hk Hd']; subst.
    destruct (IH Hd') as [IHs IHn]. clear IH.
    cbn [dict_get]. destruct (str_eqb v mime) eqn:E.
    + apply str_eqb_iff in E. subst v. split.
      * intros ext [= <-]. now rewrite str_eqb_refl.
      * split; [discriminate|]. intros H. exfalso. apply (H k).
        now rewrite str_eqb_refl.
    + apply str_eqb_neq in E. split.
      * intros ext Hloop. specialize (IHs ext Hloop).
        destruct (str_eqb k ext) eqn:Ek; [|exact IHs].
        apply str_eqb_iff in Ek. subst ext. exfalso. apply Hk.
        apply dict_get_In in IHs. apply (in_map fst) in IHs. exact IHs.
      * rewrite IHn. split.
        -- intros H ext. destruct (str_eqb k ext); [congruence | apply H].
        -- intros H ext Hget. apply (H ext).
           destruct (str_eqb k ext) eqn:Ek; [|exact Hget].
           apply str_eqb_iff in Ek. subst ext. exfalso. apply Hk.
           apply dict_get_In in Hget. apply (in_map fst) in Hget. exact Hget.
Qed.

Lemma guess_extension_from_mime_spec_facts (pf : Platform) (mime : option str) :
  (forall ext,
      guess_extension_from_mime pf mime = Some ext ->
      dict_get EXTENSIONES_MIME ext
      = Some (str_lower pf (match mime with Some m => m | None => [] end)))
  /\ (guess_extension_from_mime pf mime = None <->
      forall ext,
        dict_get EXTENSIONES_MIME ext
        <> Some (str_lower pf (match mime with Some m => m | None => [] end))).
Proof.
  unfold guess_extension_from_mime.
  apply items_loop_spec, NoDup_keys_dict_literal.
Qed.

(** X4. An extension returned by [guess_extension_from_mime] is a key of the
    table whose value is the lowered MIME type, and [None] is returned
    exactly when no key has that value. *)
Theorem guess_extension_from_mime_spec (pf : Platform) (mime : option str) :
  (forall ext,
      guess_extension_from_mime pf mime = Some ext ->
      dict_get EXTENSIONES_MIME ext
      = Some (str_lower pf (match mime with Some m => m | None => [] end)))
  /\ (guess_extension_from_mime pf mime = None <->
      forall ext,
        dict_get EXTENSIONES_MIME ext
        <> Some (str_lower pf (match mime with Some m => m | None => [] end))).
Proof.
  apply guess_extension_from_mime_spec_facts.
Qed.

Lemma guess_extension_from_mime_spec_witness :
  dict_get EXTENSIONES_MIME (lit ".jpg")
  = Some (str_lower (pf_file 10 (Return [])) (lit "IMAGE/JPEG")).
Proof.
  apply (proj1 (guess_extension_from_mime_spec (pf_file 10 (Return []))
                  (Some (lit "IMAGE/JPEG")))).
  vm_compute. reflexivity.
Defined.

Lemma guess_extension_from_mime_round_trip_facts (pf : Platform) (ext m : str) :
  dict_get EXTENSIONES_MIME ext = Some m ->
  str_lower pf m = m ->
  exists ext',
    guess_extension_from_mime pf (Some m) = Some ext'
    /\ dict_get EXTENSIONES_MIME ext' = Some m.
Proof.
  intros Hget Hlow.
  destruct (guess_extension_from_mime_spec_facts pf (Some m)) as [Hs Hn].
  rewrite Hlow in Hs, Hn.
  destruct (guess_extension_from_mime pf (Some m)) as [ext'|] eqn:E.
  - exists ext'. split; [reflexivity | now apply Hs].
  - exfalso. apply (proj1 Hn eq_refl ext). exact Hget.
Qed.

(** X5. Round trip: the MIME type of any extension of the table, when it is its
    own lower case, is guessed back to an extension with that MIME type. *)
Theorem guess_extension_from_mime_round_trip (pf : Platform) (ext m : str) :
  dict_get EXTENSIONES_MIME ext = Some m ->
  str_lower pf m = m ->
  exists ext',
    guess_extension_from_mime pf (Some m) = Some ext'
    /\ dict_get EXTENSIONES_MIME ext' = Some m.
Proof.
  apply guess_extension_from_mime_round_trip_facts.
Qed.

Lemma guess_extension_from_mime_round_trip_witness :
  exists ext',
    guess_extension_from_mime (pf_file 10 (Return [])) (Some (lit "image/jpeg"))
    = Some ext'
    /\ dict_get EXTENSIONES_MIME ext' = Some (lit "image/jpeg").
Proof.
  apply (guess_extension_from_mime_round_trip (pf_file 10 (Return []))
           (lit ".jpeg") (lit "image/jpeg")).
  - vm_compute. reflexivity.
  - vm_compute. reflexivity.
Defined.

(** X6. The display of [EXTENSIONES_MIME] writes the key [.heic] twice: the
    second value replaces the first.  Every MIME type written in the
    display is guessed back to some extension, except [image/heic], for
    which there is none. *)
Theorem guess_extension_heic_overwritten (pf : Platform) :
  (forall ext m, In (ext, m) EXTENSIONES_MIME_display -> str_lower pf m = m) ->
  (forall ext m,
      In (ext, m) EXTENSIONES_MIME_display ->
      m <> lit "image/heic" ->
      guess_extension_from_mime pf (Some m) <> None)
  /\ guess_extension_from_mime pf (Some (lit "image/heic")) = None
  /\ dict_get EXTENSIONES_MIME (lit ".heic") = Some (lit "image/heif").
Proof.
  intros Hlow. split; [|split].
  - intros ext m Hin Hne. pose proof (Hlow ext m Hin) as E.
    unfold guess_extension_from_mime.
    unfold EXTENSIONES_MIME_display in Hin. cbn [In] in Hin.
    repeat (destruct Hin as [Hin|Hin];
            [injection Hin as <- <-; rewrite E;
             first [ now contradiction Hne | vm_compute; discriminate ]|]).
    contradiction.
  - unfold guess_extension_from_mime.
    rewrite (Hlow (lit ".heic") (lit "image/heic")).
    + vm_compute. reflexivity.
    + unfold EXTENSIONES_MIME_display. do 6 right. left. reflexivity.
  - vm_compute. reflexivity.
Qed.

Lemma guess_extension_heic_overwritten_witness :
  guess_extension_from_mime (pf_file 10 (Return [])) (Some (lit "image/heic"))
  = None.
Proof.
  refine (proj1 (proj2 (guess_extension_heic_overwritten
                          (pf_file 10 (Return [])) _))).
  intros ext m Hin.
  unfold EXTENSIONES_MIME_display in Hin. cbn [In] in Hin.
  repeat (destruct Hin as [Hin|Hin];
          [injection Hin as <- <-; vm_compute; reflexivity|]).
  contradiction.
Defined.

(** ** [get_mime_type] and its callers *)

Lemma table_values_nonempty (ext : str) :
  dict_get EXTENSIONES_MIME ext <> Some [].
Proof.
  intros H. apply dict_get_In in H. apply (in_map snd) in H.
  vm_compute in H.
  repeat (destruct H as [H|H]; [discriminate H|]). exact H.
Qed.

Lemma table_keys_nonempty (m : str) : dict_get EXTENSIONES_MIME [] <> Some m.
Proof.
  intros H. apply dict_get_In in H. apply (in_map fst) in H.
  vm_compute in H.
  repeat (destruct H as [H|H]; [discriminate H|]). exact H.
Qed.

Lemma ensure_readable_file_ok (pf : Platform) (p safe_path : path) :
  resolve pf p = Return safe_path ->
  is_file pf safe_path = Return true ->
  ensure_readable_file pf p = Return safe_path.
Proof.
  intros Hr Hf. unfold ensure_readable_file, resolve_path.
  rewrite Hr. cbn [res_bind]. rewrite Hf. reflexivity.
Qed.

Lemma ensure_readable_file_missing (pf : Platform) (p safe_path : path) :
  resolve pf p = Return safe_path ->
  is_file pf safe_path = Return false ->
  exists msg, ensure_readable_file pf p = Throw (FileNotFoundError msg).
Proof.
  intros Hr Hf. unfold ensure_readable_file, resolve_path.
  rewrite Hr. cbn [res_bind]. rewrite Hf.
  eexists. reflexivity.
Qed.

Lemma ensure_readable_file_Return (pf : Platform) (p safe_path : path) :
  ensure_readable_file pf p = Return safe_path ->
  resolve pf p = Return safe_path /\ is_file pf safe_path = Return true.
Proof.
  unfold ensure_readable_file, resolve_path.
  destruct (resolve pf p) as [r|e]; cbn [res_bind]; [|discriminate].
  destruct (is_file pf r) as [[|]|e] eqn:Hf; cbn [res_bind negb];
    try discriminate.
  intros [= <-]. now split.
Qed.


Lemma get_mime_type_eq (pf : Platform) (p safe_path : path)
  (matches : list str) :
  resolve pf p = Return safe_path ->
  is_file pf safe_path = Return true ->
  magic_file pf safe_path = Return matches ->
  get_mime_type pf p =
  Return
    match matches with
    | [] => None
    | [only] => Some only
    | first :: _ =>
        match dict_get EXTENSIONES_MIME
                (str_lower pf (path_suffix pf safe_path)) with
        | Some ((_ :: _) as expected_mime) =>
            match find (fun m => str_eqb m expected_mime) matches with
            | Some m => Some m
            | None => Some first
            end
        | _ => Some first
        end
    end.
Proof.
  intros Hr Hf Hm. unfold get_mime_type.
  rewrite (ensure_readable_file_ok pf p safe_path Hr Hf). cbn [res_bind].
  rewrite Hm. cbn [res_bind].
  destruct matches as [|a [|b l]]; [reflexivity | reflexivity |].
  destruct (dict_get EXTENSIONES_MIME _) as [[|c e]|]; try reflexivity.
  match goal with
  | |- context [find ?f ?l] => destruct (find f l)
  end; reflexivity.
Qed.

Lemma find_str_eqb (x : str) (l : list str) :
  find (fun m => str_eqb m x) l = if existsb (fun m => str_eqb m x) l
                                  then Some x else None.
Proof.
  induction l as [|y l IH]; simpl; [reflexivity|].
  destruct (str_eqb y x) eqn:E; simpl; [|exact IH].
  apply str_eqb_iff in E. now subst.
Qed.

Lemma get_mime_type_Throw (pf : Platform) (p : path) (e : pyexc) :
  get_mime_type pf p = Throw e -> exists msg, e = FileNotFoundError msg.
Proof.
  unfold get_mime_type.
  match goal with
  | |- match ?D with _ => _ end = _ -> _ => destruct D as [r|[msg|msg|msg|msg]]
  end; try discriminate.
  intros [= <-]. now exists msg.
Qed.

(** X7. [get_mime_type] yields a MIME type only if the resolved path is a
    file for which [puremagic] reported that type.  The only exception it
    lets through is [FileNotFoundError], which it raises when [is_file]
    answers [False] for the resolved path.  When resolving the path or
    [is_file] raises another exception (a name that is too long, a
    directory that may not be searched, no home directory) the answer is
    [None]. *)
Theorem get_mime_type_from_matches (pf : Platform) (p : path) :
  (forall m,
      get_mime_type pf p = Return (Some m) ->
      exists safe_path matches,
        resolve pf p = Return safe_path
        /\ is_file pf safe_path = Return true
        /\ magic_file pf safe_path = Return matches
        /\ In m matches)
  /\ (forall e, get_mime_type pf p = Throw e ->
                exists msg, e = FileNotFoundError msg)
  /\ (forall safe_path,
         resolve pf p = Return safe_path ->
         is_file pf safe_path = Return false ->
         exists msg, get_mime_type pf p = Throw (FileNotFoundError msg))
  /\ (forall safe_path e,
         resolve pf p = Return safe_path ->
         is_file pf safe_path = Throw e ->
         (forall msg, e <> FileNotFoundError msg) ->
         get_mime_type pf p = Return None)
  /\ (forall e,
         resolve pf p = Throw e ->
         (forall msg, e <> FileNotFoundError msg) ->
         get_mime_type pf p = Return None).
Proof.
  split; [|split; [|split; [|split]]].
  - intros m H.
    destruct (ensure_readable_file pf p) as [safe_path|e] eqn:Ee.
    + apply ensure_readable_file_Return in Ee as [Hr Hf].
      destruct (magic_file pf safe_path) as [matches|e] eqn:Hm.
      * rewrite (get_mime_type_eq pf p safe_path matches Hr Hf Hm) in H.
        revert H.
        generalize (dict_get EXTENSIONES_MIME
                      (str_lower pf (path_suffix pf safe_path))) as o.
        intros o H. exists safe_path, matches.
        split; [exact Hr|]. split; [exact Hf|]. split; [exact Hm|].
        destruct matches as [|a [|b l]]; [discriminate | |].
        -- injection H as <-. now left.
        -- destruct o as [[|c e]|]; try (injection H as <-; now left).
           rewrite find_str_eqb in H.
           destruct (existsb (fun m0 => str_eqb m0 (c :: e)) (a :: b :: l))
             eqn:E.
           ++ injection H as <-. now apply existsb_str_eqb.
           ++ injection H as <-. now left.
      * unfold get_mime_type in H.
        rewrite (ensure_readable_file_ok pf p safe_path Hr Hf) in H.
        cbn [res_bind] in H. rewrite Hm in H. cbn [res_bind] in H.
        destruct e; discriminate H.
    + unfold get_mime_type in H. rewrite Ee in H. cbn [res_bind] in H.
      destruct e; discriminate H.
  - apply get_mime_type_Throw.
  - intros safe_path Hr Hf.
    destruct (ensure_readable_file_missing pf p safe_path Hr Hf) as [msg Hmsg].
    unfold get_mime_type. rewrite Hmsg. cbn [res_bind]. now exists msg.
  - intros safe_path e Hr Hf Hne.
    unfold get_mime_type, ensure_readable_file, resolve_path.
    rewrite Hr. cbn [res_bind]. rewrite Hf. cbn [res_bind].
    destruct e as [msg|msg|msg|msg]; try reflexivity.
    now contradiction (Hne msg).
  - intros e Hr Hne.
    unfold get_mime_type, ensure_readable_file, resolve_path.
    rewrite Hr. cbn [res_bind].
    destruct e as [msg|msg|msg|msg]; try reflexivity.
    now contradiction (Hne msg).
Qed.

Lemma get_mime_type_from_matches_witness :
  get_mime_type pf_name_max (filler 300) = Return None.
Proof.
  refine (proj1 (proj2 (proj2 (proj2 (get_mime_type_from_matches
                                        pf_name_max (filler 300)))))
            (filler 300)
            (OtherOSError (lit "[Errno 36] File name too long")) _ _ _).
  - reflexivity.
  - vm_compute. reflexivity.
  - discriminate.
Defined.

(** X8. With several candidates from [puremagic], [get_mime_type] returns the
    MIME type that the table gives for the extension whenever it is among
    the candidates, at any rank, and the first candidate otherwise; a single
    candidate is returned whatever the extension. *)
Theorem get_mime_type_tie_break (pf : Platform) (p safe_path : path)
  (matches : list str) :
  resolve pf p = Return safe_path ->
  is_file pf safe_path = Return true ->
  magic_file pf safe_path = Return matches ->
  (forall first second rest expected,
      matches = first :: second :: rest ->
      dict_get EXTENSIONES_MIME (str_lower pf (path_suffix pf safe_path))
      = Some expected ->
      In expected matches ->
      get_mime_type pf p = Return (Some expected))
  /\ (forall first second rest,
         matches = first :: second :: rest ->
         (forall expected,
             dict_get EXTENSIONES_MIME
               (str_lower pf (path_suffix pf safe_path)) = Some expected ->
             ~ In expected matches) ->
         get_mime_type pf p = Return (Some first))
  /\ (forall only, matches = [only] -> get_mime_type pf p = Return (Some only)).
Proof.
  intros Hr Hf Hm. rewrite (get_mime_type_eq pf p safe_path matches Hr Hf Hm).
  split; [|split].
  - intros first second rest expected -> Hget Hin.
    destruct expected as [|c e]; [now apply table_values_nonempty in Hget|].
    rewrite Hget, find_str_eqb.
    apply existsb_str_eqb in Hin. now rewrite Hin.
  - intros first second rest -> Hnone.
    destruct (dict_get EXTENSIONES_MIME _) as [[|c e]|]; try reflexivity.
    rewrite find_str_eqb.
    destruct (existsb (fun m => str_eqb m (c :: e)) (first :: second :: rest))
      eqn:E; [|reflexivity].
    apply existsb_str_eqb in E. now apply Hnone in E.
  - intros only ->. reflexivity.
Qed.

Lemma get_mime_type_tie_break_witness :
  get_mime_type
    (pf_file 10 (Return [lit "application/zip";
                         lit "application/vnd.openxmlformats-officedocument.wordprocessingml.document"]))
    (lit "report.DOCX")
  = Return (Some (lit "application/vnd.openxmlformats-officedocument.wordprocessingml.document")).
Proof.
  refine (proj1 (get_mime_type_tie_break
                   (pf_file 10 (Return [lit "application/zip";
                                        lit "application/vnd.openxmlformats-officedocument.wordprocessingml.document"]))
                   (lit "report.DOCX") (lit "report.DOCX") _
                   eq_refl eq_refl eq_refl) _ _ _ _ eq_refl _ _).
  - vm_compute. reflexivity.
  - right. left. reflexivity.
Defined.

(** X9. When [resolve] is idempotent, [extension_matches_mime] answers [True]
    exactly when the MIME type that the table gives for the extension is
    among the candidates of [puremagic], whatever its rank. *)
Theorem extension_matches_mime_iff (pf : Platform) (p safe_path : path)
  (matches : list str) :
  resolve pf p = Return safe_path ->
  resolve pf safe_path = Return safe_path ->
  is_file pf safe_path = Return true ->
  magic_file pf safe_path = Return matches ->
  exists b,
    extension_matches_mime pf p = Return b
    /\ (b = true <->
        exists expected,
          dict_get EXTENSIONES_MIME
            (str_lower pf (path_suffix pf safe_path)) = Some expected
          /\ In expected matches).
Proof.
  intros Hr Hidem Hf Hm.
  unfold extension_matches_mime.
  rewrite (ensure_readable_file_ok pf p safe_path Hr Hf). cbn [res_bind].
  rewrite (get_mime_type_eq pf safe_path safe_path matches Hidem Hf Hm).
  cbn [res_bind]. unfold get_equals.
  pose proof (table_values_nonempty
                (str_lower pf (path_suffix pf safe_path))) as Hne.
  destruct (dict_get EXTENSIONES_MIME
              (str_lower pf (path_suffix pf safe_path)))
    as [expected|] eqn:Eo.
  - destruct expected as [|c e]; [now contradiction Hne|]. clear Hne.
    destruct matches as [|a [|b l]].
    + exists false. split; [reflexivity|].
      split; [discriminate | intros (x & _ & [])].
    + eexists. split; [reflexivity|]. rewrite str_eqb_iff. split.
      * intros <-. exists (c :: e). split; [reflexivity | now left].
      * intros (x & [= <-] & [<-|[]]). reflexivity.
    + rewrite find_str_eqb.
      destruct (existsb (fun m => str_eqb m (c :: e)) (a :: b :: l)) eqn:E.
      * exists true. split; [now rewrite str_eqb_refl|].
        split; [|reflexivity]. intros _. exists (c :: e).
        split; [reflexivity | now apply existsb_str_eqb].
      * eexists. split; [reflexivity|]. rewrite str_eqb_iff. split.
        -- intros <-. exists (c :: e). split; [reflexivity | now left].
        -- intros (x & [= <-] & Hin). apply existsb_str_eqb in Hin. congruence.
  - exists false. split.
    + now destruct matches as [|a [|b l]].
    + split; [discriminate | intros (x & Hx & _); discriminate].
Qed.

Lemma extension_matches_mime_iff_witness :
  exists b,
    extension_matches_mime
      (pf_file 10 (Return [lit "application/zip";
                           lit "application/vnd.openxmlformats-officedocument.spreadsheetml.sheet"]))
      (lit "book.xlsx") = Return b.
Proof.
  destruct (extension_matches_mime_iff
              (pf_file 10 (Return [lit "application/zip";
                                   lit "application/vnd.openxmlformats-officedocument.spreadsheetml.sheet"]))
              (lit "book.xlsx") (lit "book.xlsx") _
              eq_refl eq_refl eq_refl eq_refl) as (b & Hb & _).
  exists b. exact Hb.
Defined.

(** The loop of [guess_extension_from_mime] stops at the first item whose
    value is the MIME type. *)
Lemma items_loop_first (mime : str) (table : list (str * str)) (ext : str) :
  (fix items_loop (items : list (str * str)) : option str :=
     match items with
     | [] => None
     | (ext, expected) :: items' =>
         if str_eqb expected mime then Some ext else items_loop items'
     end) table = Some ext ->
  exists before after,
    table = before ++ (ext, mime) :: after
    /\ forall ext' m', In (ext', m') before -> m' <> mime.
Proof.
  induction table as [|[k v] table IH]; [discriminate|].
  destruct (str_eqb v mime) eqn:E.
  - apply str_eqb_iff in E. subst v. intros [= <-].
    exists [], table. split; [reflexivity|]. intros ext' m' [].
  - apply str_eqb_neq in E. intros H.
    destruct (IH H) as (before & after & -> & Hb).
    exists ((k, v) :: before), after. split; [reflexivity|].
    intros ext' m' [[= <- <-]|Hin]; [exact E|].
    now apply (Hb ext').
Qed.

(** X10. When the extension already matches the detected MIME type,
    [suggest_correct_extension] does not return [None]: it returns the first
    extension of the table to which the table gives that MIME type.  For a
    [.jpeg] file that is [.jpg], not the extension of the file. *)
Theorem suggest_correct_extension_on_match :
  (forall (pf : Platform) (p safe_path : path),
      resolve pf p = Return safe_path ->
      resolve pf safe_path = Return safe_path ->
      (forall ext m,
          dict_get EXTENSIONES_MIME ext = Some m -> str_lower pf m = m) ->
      extension_matches_mime pf p = Return true ->
      exists suggested m before after,
        suggest_correct_extension pf p = Return (Some suggested)
        /\ dict_get EXTENSIONES_MIME
             (str_lower pf (path_suffix pf safe_path)) = Some m
        /\ dict_get EXTENSIONES_MIME suggested = Some m
        /\ EXTENSIONES_MIME = before ++ (suggested, m) :: after
        /\ forall ext' m', In (ext', m') before -> m' <> m)
  /\ extension_matches_mime (pf_file 10 (Return [lit "image/jpeg"]))
       (lit "photo.jpeg") = Return true
  /\ suggest_correct_extension (pf_file 10 (Return [lit "image/jpeg"]))
       (lit "photo.jpeg") = Return (Some (lit ".jpg")).
Proof.
  split; [|split; vm_compute; reflexivity].
  intros pf p safe_path Hr Hidem Hlow.
  unfold extension_matches_mime, suggest_correct_extension.
  destruct (ensure_readable_file pf p) as [safe_path'|e] eqn:Ee;
    cbn [res_bind]; [|discriminate].
  apply ensure_readable_file_Return in Ee as [Hr' _].
  assert (safe_path' = safe_path) by congruence. subst safe_path'.
  destruct (get_mime_type pf safe_path) as [[m|]|e];
    cbn [res_bind]; try discriminate.
  intros [= Hb]. unfold get_equals in Hb.
  destruct (dict_get EXTENSIONES_MIME
              (str_lower pf (path_suffix pf safe_path)))
    as [expected|] eqn:Eo; [|discriminate].
  apply str_eqb_iff in Hb. subst expected.
  destruct (guess_extension_from_mime_round_trip_facts pf _ m Eo (Hlow _ _ Eo))
    as (ext' & Hg & Hget).
  pose proof Hg as Hfirst. unfold guess_extension_from_mime in Hfirst.
  apply items_loop_first in Hfirst as (before & after & Htable & Hbefore).
  rewrite (Hlow _ _ Eo) in Htable, Hbefore.
  rewrite Hg. destruct ext' as [|c e].
  - now apply table_keys_nonempty in Hget.
  - exists (c :: e), m, before, after.
    split; [reflexivity|]. split; [reflexivity|]. split; [exact Hget|].
    split; [exact Htable | exact Hbefore].
Qed.

Lemma suggest_correct_extension_on_match_witness :
  exists suggested m before after,
    suggest_correct_extension (pf_file 10 (Return [lit "image/jpeg"]))
      (lit "photo.jpeg") = Return (Some suggested)
    /\ dict_get EXTENSIONES_MIME
         (str_lower (pf_file 10 (Return [lit "image/jpeg"]))
            (path_suffix (pf_file 10 (Return [lit "image/jpeg"]))
               (lit "photo.jpeg"))) = Some m
    /\ dict_get EXTENSIONES_MIME suggested = Some m
    /\ EXTENSIONES_MIME = before ++ (suggested, m) :: after
    /\ forall ext' m', In (ext', m') before -> m' <> m.
Proof.
  apply (proj1 suggest_correct_extension_on_match
           (pf_file 10 (Return [lit "image/jpeg"])) (lit "photo.jpeg")
           (lit "photo.jpeg")).
  - reflexivity.
  - reflexivity.
  - intros ext m H. apply dict_get_In in H. apply (in_map snd) in H.
    cbn [snd] in H. vm_compute in H.
    repeat (destruct H as [H|H]; [subst m; vm_compute; reflexivity|]).
    contradiction.
  - vm_compute. reflexivity.
Defined.

(** ** [_infer_file_type] and [load_file_info] *)

Ltac reflect_str_eqb :=
  repeat match goal with
         | H : str_eqb _ _ = true |- _ => apply str_eqb_iff in H
         | H : str_eqb _ _ = false |- _ => apply str_eqb_neq in H
         end.

Lemma infer_file_type_unknown_mime (extension : str) :
  _infer_file_type extension (Some (lit "unknown"))
  = if str_eqb extension (lit ".pdf") then pdf
    else if existsb (str_eqb extension) [lit ".doc"; lit ".docx"] then docx
         else unknown.
Proof.
  unfold _infer_file_type.
  destruct (str_eqb extension (lit ".pdf"));
    destruct (existsb (str_eqb extension) [lit ".doc"; lit ".docx"]);
    vm_compute; reflexivity.
Qed.

(** X11. Between PDF and Word the answer is [pdf] whenever either the MIME type
    or the extension says PDF: a [.pdf] extension overrides any MIME type
    that is not an image type, Word's included, and the PDF MIME type
    overrides any extension. *)
Theorem infer_file_type_pdf_over_docx :
  (forall mime_type,
      (forall m rest, mime_type = Some m -> m <> lit "image/" ++ rest) ->
      _infer_file_type (lit ".pdf") mime_type = pdf)
  /\ (forall extension,
         _infer_file_type extension (Some (lit "application/pdf")) = pdf).
Proof.
  split.
  - intros mime_type Hno. unfold _infer_file_type.
    rewrite str_eqb_refl, orb_true_r.
    destruct mime_type as [[|c m]|]; try reflexivity.
    destruct (startswith N.eqb (c :: m) (lit "image/")) eqn:E; [|reflexivity].
    apply (@startswith_iff _ N.eqb N.eqb_eq) in E as [rest E].
    now apply (Hno (c :: m) rest) in E.
  - intros extension. unfold _infer_file_type.
    destruct (str_eqb extension (lit ".pdf")); vm_compute; reflexivity.
Qed.

Lemma infer_file_type_pdf_over_docx_witness :
  _infer_file_type (lit ".pdf")
    (Some (lit "application/vnd.openxmlformats-officedocument.wordprocessingml.document"))
  = pdf.
Proof.
  apply (proj1 infer_file_type_pdf_over_docx).
  intros m rest [= <-] H.
  apply (f_equal (fun s => startswith N.eqb s (lit "image/"))) in H.
  rewrite (proj2 (@startswith_iff _ N.eqb N.eqb_eq (lit "image/" ++ rest) (lit "image/")))
    in H by (now exists rest).
  vm_compute in H. discriminate H.
Defined.

(** X12. When no MIME type is detected, [load_file_info] reports the MIME type
    [unknown] and decides the type by the extension alone; the type is then
    never [image], whatever the extension. *)
Theorem load_file_info_undetected (pf : Platform) (p safe_path : path)
  (detected : option str) :
  resolve pf p = Return safe_path ->
  is_file pf safe_path = Return true ->
  get_mime_type pf safe_path = Return detected ->
  detected = None \/ detected = Some [] ->
  exists i,
    load_file_info pf p = Return i
    /\ info_mime i = lit "unknown"
    /\ info_type i <> image
    /\ (info_type i = pdf <-> info_extension i = lit ".pdf")
    /\ (info_type i = docx <->
        info_extension i <> lit ".pdf"
        /\ (info_extension i = lit ".doc" \/ info_extension i = lit ".docx")).
Proof.
  intros Hr Hf Hg Hd. unfold load_file_info.
  rewrite (ensure_readable_file_ok pf p safe_path Hr Hf). cbn [res_bind].
  rewrite Hg. cbn [res_bind].
  assert (Hi : forall ext,
             {| info_path := safe_path;
                info_extension := ext;
                info_mime :=
                  match detected with
                  | Some ((_ :: _) as m) => m
                  | _ => lit "unknown"
                  end;
                info_type :=
                  _infer_file_type ext
                    (Some match detected with
                          | Some ((_ :: _) as m) => m
                          | _ => lit "unknown"
                          end) |}
             = {| info_path := safe_path;
                  info_extension := ext;
                  info_mime := lit "unknown";
                  info_type := _infer_file_type ext (Some (lit "unknown")) |})
    by (intros ext; destruct Hd; subst; reflexivity).
  rewrite Hi. eexists. split; [reflexivity|]. cbn [info_mime info_type info_extension].
  split; [reflexivity|]. rewrite infer_file_type_unknown_mime.
  set (ext := str_lower pf (path_suffix pf safe_path)).
  destruct (str_eqb ext (lit ".pdf")) eqn:E1;
    [|cbn [existsb];
      destruct (str_eqb ext (lit ".doc")) eqn:E2;
      destruct (str_eqb ext (lit ".docx")) eqn:E3; cbn [orb]];
    reflect_str_eqb;
    (split; [discriminate|]); split;
    (split; [try discriminate; tauto | try tauto; intros [_ [H|H]]; congruence]).
Qed.

Lemma load_file_info_undetected_witness :
  exists i,
    load_file_info (pf_file 10 (Throw (OtherError (lit "no match"))))
      (lit "holiday.jpg") = Return i
    /\ info_mime i = lit "unknown"
    /\ info_type i <> image.
Proof.
  destruct (load_file_info_undetected
              (pf_file 10 (Throw (OtherError (lit "no match"))))
              (lit "holiday.jpg") (lit "holiday.jpg") None
              eq_refl eq_refl eq_refl (or_introl eq_refl))
    as (i & Hi & Hm & Ht & _).
  exists i. auto.
Defined.

(** ** [extract_metadata_auto] *)

Lemma is_suspicious_iff (l : list str) : (0 <? len l) = true <-> l <> [].
Proof.
  rewrite N.ltb_lt. unfold len. destruct l; simpl; split;
    try lia; try congruence; discriminate.
Qed.

Lemma extract_metadata_auto_cases (py : Interp) (fs : FileSystem)
  (pf : Platform) (rd : Readers) (p : path) (a : analysis)
  (printed : list str) :
  extract_metadata_auto py fs pf rd p = Return (a, printed) ->
  match security_analysis a with
  | Some r =>
      analyze_risk py fs (analysis_path a) (metadata_of a) (mime_type_of a)
      = Ok r
      /\ is_suspicious r = true /\ indicators r <> [] /\ printed = []
  | None =>
      printed <> []
      \/ st_size pf (analysis_path a) = Return 0
      \/ exists r,
           analyze_risk py fs (analysis_path a) (metadata_of a)
             (mime_type_of a) = Ok r
           /\ is_suspicious r = false /\ indicators r = []
  end.
Proof.
  intros H. unfold extract_metadata_auto in H.
  destruct (ensure_readable_file pf p) as [safe_path|e0];
    cbn [res_bind] in H; [|discriminate].
  destruct (st_size pf safe_path) as [size|e0] eqn:Esize;
    cbn [res_bind] in H; [|discriminate].
  destruct (size =? 0) eqn:Es.
  - injection H as <- <-. cbn. right. left. apply N.eqb_eq in Es.
    now subst size.
  - destruct (get_mime_type pf safe_path) as [detected|e1];
      cbn [res_bind] in H; [|discriminate].
    set (mime_type := match detected with
                      | Some m => m
                      | None => lit "application/octet-stream"
                      end) in *.
    match type of H with
    | context [res_bind ?D _] => destruct D as [metadata|e2]
    end; cbn [res_bind] in H.
    + destruct (check_file_risk_total py fs safe_path mime_type)
        as [found Hfound].
      rewrite (@analyze_risk_eq py fs safe_path metadata mime_type found Hfound)
        in H.
      cbn [res_bind is_suspicious] in H.
      destruct (0 <? len (check_metadata_risk metadata ++ found)) eqn:E;
        injection H as <- <-; cbn.
      * rewrite (@analyze_risk_eq py fs safe_path metadata mime_type found Hfound).
        rewrite E. repeat split. now apply is_suspicious_iff.
      * right. right. eexists.
        rewrite (@analyze_risk_eq py fs safe_path metadata mime_type found Hfound).
        split; [reflexivity|]. cbn. split; [exact E|].
        destruct (check_metadata_risk metadata ++ found) as [|x l] eqn:El;
          [reflexivity|].
        exfalso. assert (Hne : x :: l <> []) by discriminate.
        apply is_suspicious_iff in Hne. congruence.
    + injection H as <- <-. cbn. left. discriminate.
Qed.

(** X13. The key [security_analysis] is present in the result of
    [extract_metadata_auto] only with the report of [analyze_risk] on the
    extracted metadata, and only when that report has indicators; it is
    absent only when the report has none, the file is empty, or the
    extraction raised (and was printed). *)
Theorem extract_metadata_auto_security (py : Interp) (fs : FileSystem)
  (pf : Platform) (rd : Readers) (p : path) (a : analysis)
  (printed : list str) :
  extract_metadata_auto py fs pf rd p = Return (a, printed) ->
  match security_analysis a with
  | Some r =>
      analyze_risk py fs (analysis_path a) (metadata_of a) (mime_type_of a)
      = Ok r
      /\ is_suspicious r = true /\ indicators r <> [] /\ printed = []
  | None =>
      printed <> []
      \/ st_size pf (analysis_path a) = Return 0
      \/ exists r,
           analyze_risk py fs (analysis_path a) (metadata_of a)
             (mime_type_of a) = Ok r
           /\ is_suspicious r = false /\ indicators r = []
  end.
Proof. apply extract_metadata_auto_cases. Qed.

Lemma extract_metadata_auto_security_witness :
  exists a printed,
    extract_metadata_auto py_insertion_order
      (fs_plain pdf_js_launch)
      (pf_file 80 (Return [lit "application/pdf"])) rd_failing (lit "a.pdf")
    = Return (a, printed)
    /\ match security_analysis a with
       | Some r => is_suspicious r = true /\ printed = []
       | None => True
       end.
Proof.
  destruct (extract_metadata_auto py_insertion_order
              (fs_plain pdf_js_launch)
              (pf_file 80 (Return [lit "application/pdf"])) rd_failing
              (lit "a.pdf")) as [[a printed]|e] eqn:E.
  - exists a, printed. split; [reflexivity|].
    pose proof (extract_metadata_auto_security _ _ _ _ _ _ _ E) as H.
    destruct (security_analysis a); [tauto | exact I].
  - vm_compute in E. discriminate E.
Defined.



(** X15. For every MIME type other than PDF and the three OOXML types (images,
    legacy [.doc], archives, ...) the security report attached by
    [extract_metadata_auto] holds the indicators of the metadata scan and
    nothing else: no structural scan takes place. *)
Theorem extract_metadata_auto_structure_scope (py : Interp) (fs : FileSystem)
  (pf : Platform) (rd : Readers) (p : path) (a : analysis)
  (printed : list str) (r : report) :
  extract_metadata_auto py fs pf rd p = Return (a, printed) ->
  security_analysis a = Some r ->
  mime_type_of a <> lit "application/pdf" ->
  ~ In (mime_type_of a) OOXML_MIME_TYPES ->
  indicators r = check_metadata_risk (metadata_of a).
Proof.
  intros H Hs Hpdf Hoox.
  pose proof (extract_metadata_auto_cases _ _ _ _ _ _ _ H) as Hc.
  rewrite Hs in Hc. destruct Hc as [Hr _].
  assert (Hfound : check_file_risk py fs (analysis_path a) (mime_type_of a)
                   = Ok []).
  { rewrite check_file_risk_eq.
    apply str_eqb_neq in Hpdf. rewrite Hpdf.
    destruct (existsb (str_eqb (mime_type_of a)) OOXML_MIME_TYPES) eqn:E;
      [|reflexivity].
    apply existsb_exists in E as (x & Hin & E). apply str_eqb_iff in E.
    subst x. contradiction. }
  rewrite (@analyze_risk_eq py fs (analysis_path a) (metadata_of a)
             (mime_type_of a) [] Hfound) in Hr.
  injection Hr as <-. cbn. apply app_nil_r.
Qed.

Lemma extract_metadata_auto_structure_scope_witness :
  exists a r,
    extract_metadata_auto py_insertion_order
      (fs_zip [lit "word/vbaProject.bin"])
      (pf_file 80 (Return [lit "application/msword"]))
      {| pdf_metadata := fun _ => Return [];
         core_properties :=
           fun _ => Return {| author := Some (lit "cmd.exe /c calc");
                              title := None; subject := None;
                              created := lit "None"; modified := lit "None";
                              last_printed := lit "None" |};
         extract_metadata_image := fun _ => Return (VDict []) |}
      (lit "old.doc") = Return (a, [])
    /\ security_analysis a = Some r
    /\ indicators r = check_metadata_risk (metadata_of a).
Proof.
  match goal with
  | |- exists a r, ?run = _ /\ _ =>
      destruct run as [[a printed]|e] eqn:E;
      [|vm_compute in E; discriminate E]
  end.
  pose proof E as E'. vm_compute in E'. injection E' as Ha Hp.
  subst a printed.
  eexists. eexists. split; [reflexivity|]. split; [reflexivity|].
  eapply extract_metadata_auto_structure_scope.
  - exact E.
  - reflexivity.
  - intros H. apply str_eqb_iff in H. vm_compute in H. discriminate H.
  - intros H. cbn in H.
    repeat (destruct H as [H|H];
            [apply str_eqb_iff in H; vm_compute in H; discriminate H|]).
    exact H.
Defined.

(** ** More on the heuristics *)

Lemma dedup_fixed_NoDup (l : list str) : dedup l = l -> NoDup l.
Proof. intros <-. apply dedup_spec. Qed.

Lemma NoDup_pdf_findings (content : bytes) : NoDup (pdf_findings content).
Proof.
  pdf_split content; apply dedup_fixed_NoDup; vm_compute; reflexivity.
Qed.

Lemma length_pdf_findings (content : bytes) :
  (length (pdf_findings content) <= 5)%nat.
Proof.
  pdf_split content; vm_compute; repeat constructor.
Qed.

(** X18. The conversion through a set at the end of [scan_pdf_structure] removes
    nothing: the indicators appended by the keyword loop are already
    distinct, so the result holds each of them once, in some order, and has
    at most five elements. *)
Theorem scan_pdf_structure_keeps_findings (py : Interp) (fs : FileSystem)
  (file_path : path) (content : bytes) :
  open_read fs file_path = Ok content ->
  exists out,
    scan_pdf_structure py fs file_path = Ok out
    /\ Permutation out (pdf_findings content)
    /\ length out = length (pdf_findings content)
    /\ (length out <= 5)%nat.
Proof.
  intros Hread. exists (list_set py (pdf_findings content)).
  split; [now apply scan_pdf_structure_read|].
  assert (Hperm : Permutation (list_set py (pdf_findings content))
                    (pdf_findings content)).
  { apply NoDup_Permutation.
    - apply list_set_NoDup.
    - apply NoDup_pdf_findings.
    - intros x. apply list_set_In. }
  split; [exact Hperm|]. rewrite (Permutation_length Hperm).
  split; [reflexivity | apply length_pdf_findings].
Qed.

Lemma scan_pdf_structure_keeps_findings_witness :
  exists out,
    scan_pdf_structure py_reverse_order (fs_plain pdf_js_launch) (lit "a.pdf")
    = Ok out
    /\ Permutation out (pdf_findings pdf_js_launch).
Proof.
  destruct (scan_pdf_structure_keeps_findings py_reverse_order
              (fs_plain pdf_js_launch) (lit "a.pdf") pdf_js_launch eq_refl)
    as (out & Hout & Hperm & _).
  exists out. now split.
Defined.

Lemma nth_error_msg_differs (x y : str) (i : nat) :
  nth i x 0 <> nth i y 0 -> x <> y.
Proof. intros H E. apply H. now rewrite E. Qed.

(** X19. The indicator that the handler of [check_file_risk] would append is
    never in its result: whatever the file system does, no returned
    indicator is an error text. *)
Theorem check_file_risk_no_error_indicator (py : Interp) (fs : FileSystem)
  (file_path : path) (mime_type : str) :
  exists found,
    check_file_risk py fs file_path mime_type = Ok found
    /\ forall e, ~ In (structure_error_msg e) found.
Proof.
  rewrite check_file_risk_eq.
  destruct (str_eqb mime_type (lit "application/pdf")).
  - destruct (open_read fs file_path) as [content|e0] eqn:Hr.
    + exists (list_set py (pdf_findings content)).
      split; [now apply scan_pdf_structure_read|].
      intros e H. apply list_set_In, In_pdf_findings in H.
      destruct H as [[_ H]|[[_ H]|[(_ & _ & H)|[[_ H]|[_ H]]]]];
        revert H; apply (nth_error_msg_differs _ _ 1);
        vm_compute; discriminate.
    + exists []. split; [now apply scan_pdf_structure_unreadable with e0|].
      intros e [].
  - destruct (existsb (str_eqb mime_type) OOXML_MIME_TYPES).
    + destruct (is_zipfile fs file_path) eqn:Hz.
      * destruct (zip_namelist fs file_path) as [names|e0] eqn:Hn.
        -- exists (office_findings names).
           split; [now apply scan_office_structure_names|].
           intros e H. unfold office_findings in H.
           apply in_app_or in H. destruct H as [H|H].
           ++ destruct (existsb _ names); [|contradiction].
              destruct H as [H|[]]. symmetry in H. revert H.
              apply (nth_error_msg_differs _ _ 0). vm_compute. discriminate.
           ++ destruct (ole_entries names); [contradiction|].
              destruct H as [H|[]]. symmetry in H. revert H.
              apply (nth_error_msg_differs _ _ 0). vm_compute. discriminate.
        -- exists []. split; [now apply scan_office_structure_corrupt with e0|].
           intros e [].
      * exists []. split; [now apply scan_office_structure_not_zip|].
        intros e [].
    + exists []. split; [reflexivity | intros e []].
Qed.

(** *** Case *)

Lemma fold_case_newline (c : codepoint) : fold_case c = 10 <-> c = 10.
Proof.
  unfold fold_case.
  destruct ((65 <=? c) && (c <=? 90)) eqn:E1.
  { apply andb_true_iff in E1 as [A B].
    apply N.leb_le in A. apply N.leb_le in B. lia. }
  destruct ((c =? 304) || (c =? 305)) eqn:E2.
  { apply orb_true_iff in E2. destruct E2 as [E2|E2];
      apply N.eqb_eq in E2; lia. }
  destruct (c =? 383) eqn:E3; [apply N.eqb_eq in E3; lia|].
  destruct (c =? 8490) eqn:E4; [apply N.eqb_eq in E4; lia|].
  tauto.
Qed.

Lemma atom_matches_fold_case (a : atom) (c d : codepoint) :
  fold_case c = fold_case d -> atom_matches a c = atom_matches a d.
Proof.
  intros H. destruct a as [p|]; simpl; [now rewrite H|].
  f_equal. destruct (c =? 10) eqn:Ec; destruct (d =? 10) eqn:Ed;
    try reflexivity.
  - apply N.eqb_eq in Ec. apply N.eqb_neq in Ed. exfalso. apply Ed.
    apply fold_case_newline. rewrite <- H. now apply fold_case_newline.
  - apply N.eqb_eq in Ed. apply N.eqb_neq in Ec. exfalso. apply Ec.
    apply fold_case_newline. rewrite H. now apply fold_case_newline.
Qed.

Lemma match_here_fold_case (r : regex) :
  forall s t, map fold_case s = map fold_case t ->
              match_here r s = match_here r t.
Proof.
  induction r as [|[a|a] r IH].
  - reflexivity.
  - intros [|c s] [|d t] H; try discriminate; [reflexivity|].
    simpl in H. injection H as Hc Hs. simpl.
    rewrite (atom_matches_fold_case a c d Hc). now rewrite (IH s t Hs).
  - induction s as [|c s IHs]; intros [|d t] H; try discriminate.
    + reflexivity.
    + simpl in H. injection H as Hc Hs.
      cbn [match_here]. cbn [match_here] in IHs.
      rewrite (IH (c :: s) (d :: t)) by (simpl; now rewrite Hc, Hs).
      rewrite (atom_matches_fold_case a c d Hc). now rewrite (IHs t Hs).
Qed.

Lemma re_search_fold_case (r : regex) :
  forall s t, map fold_case s = map fold_case t ->
              re_search r s = re_search r t.
Proof.
  induction s as [|c s IH]; intros [|d t] H; try discriminate.
  - reflexivity.
  - simpl. rewrite (match_here_fold_case r (c :: s) (d :: t) H).
    simpl in H. injection H as _ Hs. now rewrite (IH t Hs).
Qed.

(** X20. The scan of a string looks at it only up to the case folding of
    [re.IGNORECASE]: two strings with the same folded characters (say, the
    same text in another letter case) yield the same indicators. *)
Theorem recursive_scan_ignores_case (s t path : str) (ind : list str) :
  map fold_case s = map fold_case t ->
  recursive_scan (VStr s) path ind = recursive_scan (VStr t) path ind.
Proof.
  intros H. cbn [recursive_scan]. rewrite !scan_str_eq.
  assert (Hlen : len s = len t).
  { unfold len. f_equal. apply (f_equal (@length N)) in H.
    now rewrite !length_map in H. }
  unfold length_hit, pattern_hits. rewrite Hlen. do 2 f_equal.
  apply flat_map_ext. intros [pattern desc]. cbn [fst snd].
  now rewrite (re_search_fold_case pattern s t H).
Qed.

Lemma recursive_scan_ignores_case_witness :
  recursive_scan (VStr (lit "<SCRIPT SRC=x>")) (lit "comment") []
  = recursive_scan (VStr (lit "<script src=X>")) (lit "comment") [].
Proof.
  apply recursive_scan_ignores_case. vm_compute. reflexivity.
Defined.

(** *** Order and paths *)

(** X21. The indicators of a mapping are those of its items, item after item in
    insertion order: scanning the items of two mappings put together gives
    the indicators of the first followed by those of the second. *)
Theorem check_metadata_risk_dict_app (items1 items2 : list (str * value)) :
  check_metadata_risk (VDict (items1 ++ items2))
  = check_metadata_risk (VDict items1) ++ check_metadata_risk (VDict items2).
Proof.
  unfold check_metadata_risk. rewrite !recursive_scan_dict.
  apply flat_map_app.
Qed.

Lemma leaf_findings_block (v : value) (path p s : str) :
  leaf_at v path p s ->
  exists before after,
    recursive_scan v path [] = before ++ scan_str s p [] ++ after.
Proof.
  induction 1 as [s path|items k v path p s Hin _ IH
                 |elems i v path p s Hnth _ IH].
  - exists [], []. cbn [recursive_scan]. now rewrite app_nil_r.
  - destruct IH as (b & a & IH).
    apply in_split in Hin as (l1 & l2 & ->).
    rewrite recursive_scan_dict, flat_map_app. cbn [flat_map fst snd].
    rewrite IH.
    exists (flat_map
              (fun kv => recursive_scan (snd kv) (child_key path (fst kv)) [])
              l1 ++ b),
      (a ++ flat_map
              (fun kv => recursive_scan (snd kv) (child_key path (fst kv)) [])
              l2).
    now rewrite <- !app_assoc.
  - destruct IH as (b & a & IH).
    assert (Hin : In (N.of_nat i, v) (enumerate_from 0 elems)).
    { apply In_enumerate_from. exists i. split; [exact Hnth | reflexivity]. }
    apply in_split in Hin as (l1 & l2 & Hsplit).
    rewrite recursive_scan_list, Hsplit, flat_map_app. cbn [flat_map fst snd].
    rewrite IH.
    exists (flat_map
              (fun iv => recursive_scan (snd iv) (child_index path (fst iv)) [])
              l1 ++ b),
      (a ++ flat_map
              (fun iv => recursive_scan (snd iv) (child_index path (fst iv)) [])
              l2).
    now rewrite <- !app_assoc.
Qed.

(** X22. The findings on one string leaf stay together in the result, with the
    length indicator first and the pattern indicators in table order. *)
Theorem leaf_findings_contiguous (metadata : value) (p s : str) :
  string_leaf metadata p s ->
  exists before after,
    check_metadata_risk metadata
    = before ++ (length_hit s p ++ pattern_hits s p) ++ after.
Proof.
  intros H. destruct (leaf_findings_block metadata [] p s H) as (b & a & E).
  exists b, a. unfold check_metadata_risk. rewrite E.
  now rewrite (scan_str_eq s p []).
Qed.

Lemma leaf_findings_contiguous_witness :
  exists before after,
    check_metadata_risk
      (VDict [(lit "a", VStr (lit "eval(x)")); (lit "b", VStr (lit "/bin/sh"))])
    = before ++ (length_hit (lit "/bin/sh") (lit "b")
                 ++ pattern_hits (lit "/bin/sh") (lit "b")) ++ after.
Proof.
  apply leaf_findings_contiguous.
  eapply leaf_in_dict; [right; left; reflexivity|].
  apply leaf_here.
Defined.

(** X23. The metadata scanner removes no duplicates: a string leaf that matches
    both [auto_open] and [Document_Open], which share one description,
    yields the same indicator at least twice. *)
Theorem macro_indicator_twice (metadata : value) (p s : str) :
  string_leaf metadata p s ->
  matches_in (re_lit "auto_open") s ->
  matches_in (re_lit "Document_Open") s ->
  (2 <= count_occ str_eq_dec (check_metadata_risk metadata)
          (detected_msg (lit "Macro de auto-ejecución (Office)") p))%nat.
Proof.
  intros Hleaf H1 H2. apply re_search_iff in H1. apply re_search_iff in H2.
  destruct (leaf_findings_block metadata [] p s Hleaf) as (b & a & E).
  unfold check_metadata_risk. rewrite E, (scan_str_eq s p []).
  rewrite !count_occ_app.
  unfold pattern_hits, SUSPICIOUS_METADATA_PATTERNS.
  cbn [flat_map fst snd]. rewrite H1, H2. rewrite !count_occ_app.
  set (m := detected_msg (lit "Macro de auto-ejecución (Office)") p).
  assert (Hm : count_occ str_eq_dec [m] m = 1%nat).
  { cbn [count_occ]. destruct (str_eq_dec m m); [reflexivity | congruence]. }
  rewrite Hm. lia.
Qed.

Lemma macro_indicator_twice_witness :
  (2 <= count_occ str_eq_dec
          (check_metadata_risk
             (VDict [(lit "macros",
                      VStr (lit "Sub Auto_Open() / Sub Document_Open()"))]))
          (detected_msg (lit "Macro de auto-ejecución (Office)")
             (lit "macros")))%nat.
Proof.
  apply (macro_indicator_twice _ (lit "macros")
           (lit "Sub Auto_Open() / Sub Document_Open()")).
  - eapply leaf_in_dict; [left; reflexivity|]. apply leaf_here.
  - apply re_search_iff. vm_compute. reflexivity.
  - apply re_search_iff. vm_compute. reflexivity.
Defined.

(** X24. A path in an indicator does not tell where the leaf is: a key that
    contains a dot is reported like a nested key, and a mapping under the
    empty root key like the root itself. *)
Theorem dotted_key_same_as_nesting (k1 k2 : str) (v : value) :
  (k1 <> [] ->
   check_metadata_risk (VDict [(k1 ++ lit "." ++ k2, v)])
   = check_metadata_risk (VDict [(k1, VDict [(k2, v)])]))
  /\ check_metadata_risk (VDict [([], VDict [(k2, v)])])
     = check_metadata_risk (VDict [(k2, v)]).
Proof.
  unfold check_metadata_risk. split.
  - intros Hk. rewrite !recursive_scan_dict. cbn [flat_map fst snd].
    rewrite !app_nil_r. rewrite recursive_scan_dict. cbn [flat_map fst snd].
    rewrite app_nil_r. destruct k1; [contradiction|]. reflexivity.
  - rewrite !recursive_scan_dict. cbn [flat_map fst snd].
    rewrite !app_nil_r. rewrite recursive_scan_dict. cbn [flat_map fst snd].
    now rewrite app_nil_r.
Qed.

Lemma dotted_key_same_as_nesting_witness :
  check_metadata_risk (VDict [(lit "exif.comment", VStr (lit "powershell"))])
  = check_metadata_risk
      (VDict [(lit "exif", VDict [(lit "comment", VStr (lit "powershell"))])]).
Proof.
  assert (E : lit "exif.comment" = lit "exif" ++ lit "." ++ lit "comment")
    by (vm_compute; reflexivity).
  rewrite E.
  apply (proj1 (dotted_key_same_as_nesting (lit "exif") (lit "comment")
                  (VStr (lit "powershell")))).
  intros H. apply (f_equal (@length N)) in H. vm_compute in H. discriminate H.
Defined.

(** ** Extractors and the scanners together *)

(** X17. The dictionary returned by [extract_metadata_pdf] has distinct keys that
    neither begin nor end with a slash, and all its values are strings;
    this holds for the error entry of a failed read as well. *)
Theorem extract_metadata_pdf_keys (pf : Platform) (rd : Readers) (p : path)
  (items : list (str * value)) :
  extract_metadata_pdf pf rd p = Return items ->
  NoDup (keys items)
  /\ forall k v, In (k, v) items ->
                 stripped (N.eqb 47) k /\ exists s, v = VStr s.
Proof.
  unfold extract_metadata_pdf.
  destruct (ensure_readable_file pf p) as [safe_path|e0];
    cbn [res_bind]; [|discriminate].
  destruct (pdf_metadata rd safe_path) as [info|e1]; intros [= <-].
  - apply (fold_left_invariant _ _
             (fun d : list (str * value) =>
                NoDup (keys d)
                /\ forall k v, In (k, v) d ->
                               stripped (N.eqb 47) k /\ exists s, v = VStr s)).
    + split; [constructor | intros k v []].
    + intros d [k0 v0] [Hd Hs]. cbn [fst snd].
      split; [now apply NoDup_keys_dict_set|].
      intros k v Hin. apply In_dict_set in Hin as [Hin|[-> ->]].
      * now apply Hs.
      * split; [apply strip_with_stripped | now exists v0].
  - split.
    + repeat constructor. intros [].
    + intros k v [[= <- <-]|[]]. split.
      * unfold stripped. vm_compute. now split.
      * eexists. reflexivity.
Qed.

Lemma extract_metadata_pdf_keys_witness :
  exists items,
    extract_metadata_pdf (pf_file 80 (Return [lit "application/pdf"]))
      {| pdf_metadata :=
           fun _ => Return [(lit "/Title", lit "T"); (lit "/Author/", lit "A");
                            (lit "Title", lit "U")];
         core_properties := fun _ => Throw (OtherError []);
         extract_metadata_image := fun _ => Return (VDict []) |}
      (lit "a.pdf") = Return items
    /\ NoDup (keys items).
Proof.
  match goal with
  | |- exists items, ?run = _ /\ _ =>
      destruct run as [items|e] eqn:E; [|vm_compute in E; discriminate E]
  end.
  exists items. split; [reflexivity|].
  exact (proj1 (extract_metadata_pdf_keys _ _ _ _ E)).
Defined.

(** X16. A spreadsheet or a presentation gets no metadata extraction, only the
    note that the format is not supported, yet its archive is scanned: an
    entry ending in [vbaProject.bin] puts the macro indicator into the
    attached security report. *)
Theorem extract_metadata_auto_spreadsheet (py : Interp) (fs : FileSystem)
  (pf : Platform) (rd : Readers) (p safe_path : path) (size : N)
  (mime : str) (file_names : list str) :
  resolve pf p = Return safe_path ->
  is_file pf safe_path = Return true ->
  st_size pf safe_path = Return size ->
  size <> 0 ->
  get_mime_type pf safe_path = Return (Some mime) ->
  In mime
    [ lit "application/vnd.openxmlformats-officedocument.spreadsheetml.sheet";
      lit "application/vnd.openxmlformats-officedocument.presentationml.presentation" ] ->
  is_zipfile fs safe_path = true ->
  zip_namelist fs safe_path = Ok file_names ->
  (exists name, In name file_names /\ ends_with name (lit "vbaProject.bin")) ->
  exists a r,
    extract_metadata_auto py fs pf rd p = Return (a, [])
    /\ metadata_of a
       = VDict [(lit "info",
                 VStr (lit "Format not currently supported for deep analysis."))]
    /\ security_analysis a = Some r
    /\ In vba_msg (indicators r).
Proof.
  intros Hr Hf Hsize Hs Hg Hin Hz Hn (name & Hname & Hend).
  assert (Hoox : In mime OOXML_MIME_TYPES).
  { destruct Hin as [<-|[<-|[]]]; [right; left | right; right; left];
      reflexivity. }
  assert (C1 : startswith N.eqb mime (lit "image/") = false)
    by (destruct Hin as [<-|[<-|[]]]; vm_compute; reflexivity).
  assert (C2 : str_eqb mime (lit "application/pdf") = false)
    by (destruct Hin as [<-|[<-|[]]]; vm_compute; reflexivity).
  assert (C3 : existsb (str_eqb mime)
                 [ lit "application/msword";
                   lit "application/vnd.openxmlformats-officedocument.wordprocessingml.document" ]
               = false)
    by (destruct Hin as [<-|[<-|[]]]; vm_compute; reflexivity).
  assert (Hvba : In vba_msg (office_findings file_names)).
  { unfold office_findings. apply in_or_app. left.
    assert (E : existsb (fun n => str_endswith n (lit "vbaProject.bin"))
                  file_names = true).
    { apply existsb_exists. exists name.
      split; [exact Hname | now apply str_endswith_iff]. }
    rewrite E. now left. }
  assert (Hmd : check_metadata_risk
                  (VDict [(lit "info",
                           VStr (lit "Format not currently supported for deep analysis."))])
                = []) by (vm_compute; reflexivity).
  assert (Hfound : check_file_risk py fs safe_path mime
                   = Ok (office_findings file_names)).
  { rewrite (@check_file_risk_ooxml py fs safe_path mime Hoox).
    now apply scan_office_structure_names. }
  unfold extract_metadata_auto.
  rewrite (ensure_readable_file_ok pf p safe_path Hr Hf). cbn [res_bind].
  rewrite Hsize. cbn [res_bind].
  apply N.eqb_neq in Hs. rewrite Hs, Hg. cbn [res_bind].
  rewrite C1, C2, C3. cbn [res_bind].
  rewrite (@analyze_risk_eq py fs safe_path _ mime _ Hfound).
  cbn [res_bind is_suspicious]. rewrite Hmd. cbn [app].
  assert (Hsus : (0 <? len (office_findings file_names)) = true).
  { apply is_suspicious_iff. intros E. rewrite E in Hvba. contradiction. }
  rewrite Hsus. eexists. eexists. split; [reflexivity|].
  cbn [metadata_of security_analysis]. split; [reflexivity|].
  split; [reflexivity|]. exact Hvba.
Qed.

Lemma extract_metadata_auto_spreadsheet_witness :
  exists a r,
    extract_metadata_auto py_insertion_order
      (fs_zip [lit "xl/workbook.xml"; lit "xl/vbaProject.bin"])
      (pf_file 80
         (Return [lit "application/vnd.openxmlformats-officedocument.spreadsheetml.sheet"]))
      rd_failing (lit "book.xlsx") = Return (a, [])
    /\ security_analysis a = Some r
    /\ In vba_msg (indicators r).
Proof.
  destruct (extract_metadata_auto_spreadsheet py_insertion_order
              (fs_zip [lit "xl/workbook.xml"; lit "xl/vbaProject.bin"])
              (pf_file 80
                 (Return [lit "application/vnd.openxmlformats-officedocument.spreadsheetml.sheet"]))
              rd_failing (lit "book.xlsx") (lit "book.xlsx") 80
              (lit "application/vnd.openxmlformats-officedocument.spreadsheetml.sheet")
              [lit "xl/workbook.xml"; lit "xl/vbaProject.bin"])
    as (a & r & Ha & _ & Hs & Hv).
  - reflexivity.
  - reflexivity.
  - reflexivity.
  - discriminate.
  - vm_compute. reflexivity.
  - left. reflexivity.
  - reflexivity.
  - reflexivity.
  - exists (lit "xl/vbaProject.bin"). split; [right; now left|].
    apply str_endswith_iff. vm_compute. reflexivity.
  - exists a, r. auto.
Defined.
